(** * A shallow embedding of the platformer's game systems

    The TypeScript sources embedded here are
      - config/GameConstants.ts            (Modules [WORLD_CONFIG] ... [UI_CONFIG])
      - systems/InputManager.ts            (Module [InputManager])
      - systems/Player.ts                  (Module [Player])
      - systems/BackgroundManager.ts       (Module [BackgroundManager])
      - systems/QuestBoard.ts              (Module [QuestBoard])
      - systems/obstacles/BaseObstacle.ts  (Module [BaseObstacle])
      - systems/obstacles/OozeObstacle.ts  (Module [OozeObstacle])
      - scenes/Game.ts                     (Module [Game])
      - main.ts                            (Module [Main])

    A JavaScript [number] is an IEEE 754 binary64 value, and so is Rocq's
    primitive [float]: arithmetic and comparisons below are the kernel's
    binary64 operations, which round exactly as the host does.  Objects that
    are shared by reference (the player, the quest boards, the scene's tween
    list) live in one store, the record [Game.t], and every method that
    touches them is a function on that store.

    One thing the program's behaviour depends on is not in the sources: the
    compiler option [useDefineForClassFields], which decides whether a class
    field declared without an initialiser is defined anew, as [undefined],
    when the object is constructed.  It is a parameter of [OozeObstacle.new]
    and of [Game.create], and the properties below are stated for both of
    its values. *)

From Stdlib Require Import ZArith List Bool Lia String.
From Stdlib Require Import Floats.
Import ListNotations.

Set Warnings "-inexact-float".

#[local] Open Scope float_scope.

Abbreviation number := float.

(* ------------------------------------------------------------------ *)
(** ** Host built-ins *)

Module Math.

Definition two52 : number := 4503599627370496.

(** [Math.floor]: below 2^52 in magnitude, adding and removing 2^52 yields
    the nearest integer, which is then lowered when it exceeds [x]. *)
Definition floor (x : number) : number :=
  if abs x <? two52 then
    let r := if 0 <=? x then (x + two52) - two52 else (x - two52) + two52 in
    if x <? r then r - 1 else r
  else x.

(** [Math.round]: nearest integer, ties towards +infinity, the sign of a zero
    result following the argument. *)
Definition round (x : number) : number :=
  if abs x <? two52 then
    let f := floor x in
    let r := if x - f <? 0.5 then f else f + 1 in
    if (r =? 0) && ((x <? 0) || (1 / x <? 0)) then - 0 else r
  else x.

(** [Phaser.Math.Distance.Between]: the engine computes
    [Math.sqrt(dx * dx + dy * dy)] with [dx = x1 - x2], [dy = y1 - y2]. *)
Definition DistanceBetween (x1 y1 x2 y2 : number) : number :=
  let dx := x1 - x2 in
  let dy := y1 - y2 in
  sqrt (dx * dx + dy * dy).

End Math.

(* ------------------------------------------------------------------ *)
(** ** config/GameConstants.ts *)

Module WORLD_CONFIG.
Definition WORLD_SIZE : number := 1000000.
Definition WORLD_HEIGHT : number := 1080.
Definition GROUND_OFFSET_FROM_BOTTOM : number := 100.
Definition GROUND_PLATFORM_HEIGHT : number := 64.
End WORLD_CONFIG.

Module PLAYER_CONFIG.
Definition STARTING_X : number := 300.
Definition STARTING_Y : number := 800.
Definition WALK_SPEED : number := 200.
Definition RUN_SPEED : number := 300.
Definition JUMP_VELOCITY : number := -500.
End PLAYER_CONFIG.

Module OBSTACLE_CONFIG.
Module OOZE.
Definition X_POSITION : number := 1200.
Definition Y_OFFSET : number := 50.
Definition INTERACTION_DISTANCE : number := 100.
End OOZE.
End OBSTACLE_CONFIG.

Module BACKGROUND_CONFIG.
Module SCROLL_SPEEDS.
Definition BACK_SKY : number := 0.1.
Definition SKY_GLOW : number := 0.1.
Definition CLOUDS : number := 0.1.
Definition MIDGROUND_ROCKS : number := 0.2.
Definition FOREGROUND_ROCKS : number := 0.3.
Definition GROUND_LAYER : number := 1.0.
End SCROLL_SPEEDS.
End BACKGROUND_CONFIG.

Module UI_CONFIG.
Module CHAT_BUBBLE.
Definition X_OFFSET : number := 135.
Definition Y_OFFSET : number := -65.
End CHAT_BUBBLE.
Module JUMP_DUST.
Definition Y_OFFSET : number := 30.
End JUMP_DUST.
End UI_CONFIG.

(** main.ts: the game is configured 1920 x 1080, which is what
    [scene.scale] and the main camera report. *)
Module GAME_CONFIG.
Definition width : number := 1920.
Definition height : number := 1080.
End GAME_CONFIG.

(* ------------------------------------------------------------------ *)
(** ** systems/InputManager.ts *)

Module InputManager.

(** A keyboard key as the engine exposes it: the level-triggered [isDown],
    the latch [justDown] that [Phaser.Input.Keyboard.JustDown] reads and
    clears, and [tickDue], which [keyboard.checkDown] reads and clears: the
    engine's clock has passed the key's tick. *)
Record Key := { isDown : bool; justDown : bool; tickDue : bool }.

Record t := {
  cursors_left : Key;
  cursors_right : Key;
  cursors_up : Key;
  spaceKey : Key;
  shiftKey : Key;
  interactKey : Key
}.

Definition isMovingLeft (im : t) : bool := isDown (cursors_left im).

Definition isMovingRight (im : t) : bool := isDown (cursors_right im).

Definition isJumping (im : t) : bool :=
  isDown (cursors_up im) || isDown (spaceKey im).

(** [keyboard.checkDown(key, 0)]: the engine compares the time the key has
    been held, by its own clock, with the key's tick; for a held key whose
    tick that time has passed it answers true and moves the tick up to it,
    so that a second call before the clock moves on answers false.
    [tickDue] is the outcome of the comparison. *)
Definition checkDown (k : Key) : bool * Key :=
  if isDown k && tickDue k
  then (true, {| isDown := isDown k; justDown := justDown k; tickDue := false |})
  else (false, k).

Definition set_shiftKey (k : Key) (im : t) : t :=
  {| cursors_left := cursors_left im; cursors_right := cursors_right im;
     cursors_up := cursors_up im; spaceKey := spaceKey im;
     shiftKey := k; interactKey := interactKey im |}.

Definition isRunning (im : t) : bool * t :=
  let (b, k) := checkDown (shiftKey im) in (b, set_shiftKey k im).

Definition isMovingHorizontally (im : t) : bool :=
  isMovingLeft im || isMovingRight im.

Definition getHorizontalDirection (im : t) : number :=
  if isMovingLeft im then -1
  else if isMovingRight im then 1
  else 0.

(** [JustDown(key)] answers the latch and clears it. *)
Definition JustDown (k : Key) : bool * Key :=
  if justDown k
  then (true, {| isDown := isDown k; justDown := false; tickDue := tickDue k |})
  else (false, k).

Definition set_interactKey (k : Key) (im : t) : t :=
  {| cursors_left := cursors_left im; cursors_right := cursors_right im;
     cursors_up := cursors_up im; spaceKey := spaceKey im;
     shiftKey := shiftKey im; interactKey := k |}.

Definition isInteractPressed (im : t) : bool * t :=
  let (b, k) := JustDown (interactKey im) in (b, set_interactKey k im).

End InputManager.

(* ------------------------------------------------------------------ *)
(** ** systems/Player.ts *)

Module Player.

(** The part of a [Physics.Arcade.Sprite] the player code reads or writes.
    [touching_down] is [body.touching.down], written by the engine. *)
Record Sprite := {
  x : number;
  y : number;
  velocityX : number;
  velocityY : number;
  flipX : bool;
  currentAnim : option string;
  touching_down : bool
}.

(** A jump-dust sprite added to the scene at a position. *)
Record Dust := { dust_x : number; dust_y : number }.

Record t := {
  sprite : Sprite;
  canMove : bool;
  (** dust sprites this player has added to the scene, latest first *)
  dustSprites : list Dust
}.

Definition setVelocityX (v : number) (s : Sprite) : Sprite :=
  {| x := x s; y := y s; velocityX := v; velocityY := velocityY s;
     flipX := flipX s; currentAnim := currentAnim s;
     touching_down := touching_down s |}.

Definition setVelocityY (v : number) (s : Sprite) : Sprite :=
  {| x := x s; y := y s; velocityX := velocityX s; velocityY := v;
     flipX := flipX s; currentAnim := currentAnim s;
     touching_down := touching_down s |}.

Definition setFlipX (b : bool) (s : Sprite) : Sprite :=
  {| x := x s; y := y s; velocityX := velocityX s; velocityY := velocityY s;
     flipX := b; currentAnim := currentAnim s;
     touching_down := touching_down s |}.

Definition anims_play (key : string) (s : Sprite) : Sprite :=
  {| x := x s; y := y s; velocityX := velocityX s; velocityY := velocityY s;
     flipX := flipX s; currentAnim := Some key;
     touching_down := touching_down s |}.

Definition setPosition (nx ny : number) (s : Sprite) : Sprite :=
  {| x := nx; y := ny; velocityX := velocityX s; velocityY := velocityY s;
     flipX := flipX s; currentAnim := currentAnim s;
     touching_down := touching_down s |}.

Definition with_sprite (s : Sprite) (p : t) : t :=
  {| sprite := s; canMove := canMove p; dustSprites := dustSprites p |}.

(** [createPlayer]: the sprite starts at the configured position, at rest;
    the idle animation is started by a delayed call, later than creation. *)
Definition createPlayer : t :=
  {| sprite := {| x := PLAYER_CONFIG.STARTING_X; y := PLAYER_CONFIG.STARTING_Y;
                  velocityX := 0; velocityY := 0; flipX := false;
                  currentAnim := None; touching_down := false |};
     canMove := true;
     dustSprites := [] |}.

Definition playJumpDustEffect (p : t) : t :=
  {| sprite := sprite p; canMove := canMove p;
     dustSprites :=
       {| dust_x := x (sprite p);
          dust_y := y (sprite p) + UI_CONFIG.JUMP_DUST.Y_OFFSET |}
       :: dustSprites p |}.

Definition jump (p : t) : t :=
  let p := with_sprite (setVelocityY PLAYER_CONFIG.JUMP_VELOCITY (sprite p)) p in
  let p := with_sprite (anims_play "jump" (sprite p)) p in
  playJumpDustEffect p.

(** The player shares the scene's input manager; the methods that query it
    receive it and return it with the player. *)
Definition handleMovement (im : InputManager.t) (p : t) : InputManager.t * t :=
  if negb (canMove p) then
    (im, with_sprite (setVelocityX 0 (sprite p)) p)
  else
    let isOnGround := touching_down (sprite p) in
    let direction := InputManager.getHorizontalDirection im in
    let (isRunning, im) := InputManager.isRunning im in
    let speed :=
      if isRunning then PLAYER_CONFIG.RUN_SPEED else PLAYER_CONFIG.WALK_SPEED in
    let p :=
      if negb (direction =? 0) then
        let p := with_sprite (setVelocityX (direction * speed) (sprite p)) p in
        let p := with_sprite (setFlipX (direction <? 0) (sprite p)) p in
        if isOnGround then with_sprite (anims_play "run" (sprite p)) p else p
      else
        let p := with_sprite (setVelocityX 0 (sprite p)) p in
        if isOnGround then with_sprite (anims_play "idle" (sprite p)) p else p
    in
    (im, if InputManager.isJumping im && isOnGround then jump p else p).

Definition preventPixelBlur (p : t) : t :=
  with_sprite
    (setPosition (Math.round (x (sprite p))) (Math.round (y (sprite p)))
       (sprite p)) p.

Definition update (im : InputManager.t) (p : t) : InputManager.t * t :=
  let (im, p) := handleMovement im p in
  (im, preventPixelBlur p).

Definition getPosition (p : t) : number * number :=
  (x (sprite p), y (sprite p)).

Definition enableMovement (p : t) : t :=
  {| sprite := sprite p; canMove := true; dustSprites := dustSprites p |}.

Definition disableMovement (p : t) : t :=
  {| sprite := setVelocityX 0 (sprite p); canMove := false;
     dustSprites := dustSprites p |}.

Definition canPlayerMove (p : t) : bool := canMove p.

End Player.

(* ------------------------------------------------------------------ *)
(** ** systems/BackgroundManager.ts *)

Module BackgroundManager.

Record TileSprite := { textureKey : string; tilePositionX : number }.

(** The six tiling layers; the planet is a plain image that never moves and
    has no offset to update. *)
Record t := {
  backSky : TileSprite;
  skyGlow : TileSprite;
  clouds : TileSprite;
  midgroundRocks : TileSprite;
  foregroundRocks : TileSprite;
  groundLayer : TileSprite
}.

Definition createParallaxLayer (key : string) : TileSprite :=
  {| textureKey := key; tilePositionX := 0 |}.

Definition createBackground : t :=
  {| backSky := createParallaxLayer "back-sky";
     midgroundRocks := createParallaxLayer "midground-rocks";
     skyGlow := createParallaxLayer "sky-glow";
     clouds := createParallaxLayer "sky-glow";
     foregroundRocks := createParallaxLayer "foreground-rocks";
     groundLayer := createParallaxLayer "ground" |}.

Definition set_tilePositionX (v : number) (l : TileSprite) : TileSprite :=
  {| textureKey := textureKey l; tilePositionX := v |}.

Definition updateParallax (cameraScrollX : number) (bg : t) : t :=
  let scrollSpeeds_BACK_SKY := BACKGROUND_CONFIG.SCROLL_SPEEDS.BACK_SKY in
  {| backSky :=
       set_tilePositionX
         (tilePositionX (backSky bg) + scrollSpeeds_BACK_SKY) (backSky bg);
     skyGlow :=
       set_tilePositionX
         (cameraScrollX * BACKGROUND_CONFIG.SCROLL_SPEEDS.SKY_GLOW) (skyGlow bg);
     clouds :=
       set_tilePositionX
         (cameraScrollX * BACKGROUND_CONFIG.SCROLL_SPEEDS.CLOUDS) (clouds bg);
     midgroundRocks :=
       set_tilePositionX
         (cameraScrollX * BACKGROUND_CONFIG.SCROLL_SPEEDS.MIDGROUND_ROCKS)
         (midgroundRocks bg);
     foregroundRocks :=
       set_tilePositionX
         (cameraScrollX * BACKGROUND_CONFIG.SCROLL_SPEEDS.FOREGROUND_ROCKS)
         (foregroundRocks bg);
     groundLayer :=
       set_tilePositionX
         (cameraScrollX * BACKGROUND_CONFIG.SCROLL_SPEEDS.GROUND_LAYER)
         (groundLayer bg) |}.

End BackgroundManager.

(* ------------------------------------------------------------------ *)
(** ** Object references

    The scene keeps the objects of a class in a list; a reference is an index
    into it, and writing through a reference replaces the element. *)

Definition store {A : Type} (r : nat) (a : A) (l : list A) : list A :=
  firstn r l ++ a :: skipn (S r) l.

(* ------------------------------------------------------------------ *)
(** ** The scene's tween manager (engine side)

    [scene.tweens.add] registers a time-based transition on a quest board's
    container.  A tween holds the end values of the animated properties, its
    duration in milliseconds, the time it has run, and the completion closure
    when one was given.  Only completion is modelled: the eased values in
    between are the engine's. *)

Module Tweens.

(** The one completion closure of the sources, from [hideQuestBoard]:
    [() => { this.container.setVisible(false); this.isVisible = false; }]. *)
Inductive OnComplete := HideContainer.

Record Tween := {
  targets : nat;
  alpha : number;
  scaleX : number;
  scaleY : number;
  duration : Z;
  elapsed : Z;
  onComplete : option OnComplete
}.

Definition with_elapsed (e : Z) (tw : Tween) : Tween :=
  {| targets := targets tw; alpha := alpha tw; scaleX := scaleX tw;
     scaleY := scaleY tw; duration := duration tw; elapsed := e;
     onComplete := onComplete tw |}.

End Tweens.

(* ------------------------------------------------------------------ *)
(** ** systems/QuestBoard.ts

    The class is embedded for an arbitrary type of close-callbacks.  A method
    receives the board, the reference [self] under which the scene stores it,
    and the scene's tween list; the OK button's handler moreover returns the
    callbacks it has invoked, in order. *)

Module QuestBoard.

Section WithCallback.

Variable Callback : Type.

Record Container := {
  visible : bool;
  alpha : number;
  scaleX : number;
  scaleY : number
}.

Record t := {
  container : Container;
  isVisible : bool;
  onCloseCallback : option Callback
}.

(** [constructor] / [createQuestBoard]: the UI elements are grouped in a
    container that is initially hidden. *)
Definition createQuestBoard : t :=
  {| container := {| visible := false; alpha := 1; scaleX := 1; scaleY := 1 |};
     isVisible := false;
     onCloseCallback := None |}.

Definition fadeIn (self : nat) : Tweens.Tween :=
  {| Tweens.targets := self; Tweens.alpha := 1;
     Tweens.scaleX := 1; Tweens.scaleY := 1;
     Tweens.duration := 400; Tweens.elapsed := 0;
     Tweens.onComplete := None |}.

Definition fadeOut (self : nat) : Tweens.Tween :=
  {| Tweens.targets := self; Tweens.alpha := 0;
     Tweens.scaleX := 0.8; Tweens.scaleY := 0.8;
     Tweens.duration := 300; Tweens.elapsed := 0;
     Tweens.onComplete := Some Tweens.HideContainer |}.

Definition showQuestBoard (self : nat) (onClose : option Callback)
  (q : t) (tweens : list Tweens.Tween) : t * list Tweens.Tween :=
  if negb (isVisible q) then
    ({| container :=
          {| visible := true; alpha := 0; scaleX := 0.8; scaleY := 0.8 |};
        isVisible := true;
        onCloseCallback := onClose |},
     tweens ++ [fadeIn self])
  else (q, tweens).

Definition hideQuestBoard (self : nat)
  (q : t) (tweens : list Tweens.Tween) : t * list Tweens.Tween :=
  if isVisible q then (q, tweens ++ [fadeOut self]) else (q, tweens).

(** The OK button's ['pointerdown'] listener:
    [this.hideQuestBoard(); if (this.onCloseCallback) this.onCloseCallback();]
    The second component lists the callbacks invoked before it returns. *)
Definition okButton_pointerdown (self : nat)
  (q : t) (tweens : list Tweens.Tween)
  : (t * list Tweens.Tween) * list Callback :=
  let (q, tweens) := hideQuestBoard self q tweens in
  match onCloseCallback q with
  | Some cb => ((q, tweens), [cb])
  | None => ((q, tweens), [])
  end.

Definition isQuestBoardVisible (q : t) : bool := isVisible q.

(** What the completion of a tween does to its target: the animated
    properties reach their end values, then the completion closure runs. *)
Definition tweenComplete (tw : Tweens.Tween) (q : t) : t :=
  let c := {| visible := visible (container q); alpha := Tweens.alpha tw;
              scaleX := Tweens.scaleX tw; scaleY := Tweens.scaleY tw |} in
  match Tweens.onComplete tw with
  | Some Tweens.HideContainer =>
      {| container := {| visible := false; alpha := alpha c;
                         scaleX := scaleX c; scaleY := scaleY c |};
         isVisible := false;
         onCloseCallback := onCloseCallback q |}
  | None =>
      {| container := c; isVisible := isVisible q;
         onCloseCallback := onCloseCallback q |}
  end.

End WithCallback.

Arguments container {Callback}.
Arguments isVisible {Callback}.
Arguments onCloseCallback {Callback}.
Arguments showQuestBoard {Callback}.
Arguments hideQuestBoard {Callback}.
Arguments okButton_pointerdown {Callback}.
Arguments isQuestBoardVisible {Callback}.
Arguments tweenComplete {Callback}.

End QuestBoard.

(* ------------------------------------------------------------------ *)
(** ** systems/obstacles/BaseObstacle.ts *)

Module BaseObstacle.

(** The fields the base class declares; [sprite_x], [sprite_y] are the
    position of the static sprite made by [createSprite]. *)
Record t := {
  sprite_x : number;
  sprite_y : number;
  interactionDistance : number
}.

Definition isPlayerNearby (playerPosition : number * number) (o : t) : bool :=
  let distance :=
    Math.DistanceBetween (fst playerPosition) (snd playerPosition)
      (sprite_x o) (sprite_y o) in
  distance <? interactionDistance o.

Definition getPosition (o : t) : number * number := (sprite_x o, sprite_y o).

End BaseObstacle.

(* ------------------------------------------------------------------ *)
(** ** systems/obstacles/OozeObstacle.ts *)

Module OozeObstacle.

(** An engine image or text object: its position, its [visible] property
    (true when the engine creates it) and the [setVisible] calls it has
    received, oldest first. *)
Record GameObject := {
  obj_x : number;
  obj_y : number;
  visible : bool;
  setVisibleCalls : list bool
}.

Definition setVisible (b : bool) (o : GameObject) : GameObject :=
  {| obj_x := obj_x o; obj_y := obj_y o; visible := b;
     setVisibleCalls := setVisibleCalls o ++ [b] |}.

(** The close-callback this class passes to the quest board:
    [() => { this.player.enableMovement(); console.log(...) }]. *)
Inductive Callback := ReenableMovement.

Definition Board := QuestBoard.t Callback.

(** A field of the class is [None] while it is [undefined] (or [null], for
    [questBoard]); [questBoard] refers to a board of the scene by its index
    in the list of the boards constructed so far. *)
Record t := {
  base : BaseObstacle.t;
  chatBubbleImage : option GameObject;
  chatBubbleText : option GameObject;
  chatBubbleVisible : option bool;
  questBoard : option nat
}.

Definition with_bubble (img txt : option GameObject) (v : option bool) (o : t) : t :=
  {| base := base o; chatBubbleImage := img; chatBubbleText := txt;
     chatBubbleVisible := v; questBoard := questBoard o |}.

Definition with_questBoard (r : option nat) (o : t) : t :=
  {| base := base o; chatBubbleImage := chatBubbleImage o;
     chatBubbleText := chatBubbleText o;
     chatBubbleVisible := chatBubbleVisible o; questBoard := r |}.

(** Truthiness of a boolean field that may still be [undefined]. *)
Definition truthy (v : option bool) : bool :=
  match v with Some true => true | _ => false end.

Definition showChatBubble (o : t) : t :=
  match chatBubbleImage o, chatBubbleText o with
  | Some img, Some txt =>
      if negb (truthy (chatBubbleVisible o)) then
        with_bubble (Some (setVisible true img)) (Some (setVisible true txt))
          (Some true) o
      else o
  | _, _ => o
  end.

Definition hideChatBubble (o : t) : t :=
  match chatBubbleImage o, chatBubbleText o with
  | Some img, Some txt =>
      if truthy (chatBubbleVisible o) then
        with_bubble (Some (setVisible false img)) (Some (setVisible false txt))
          (Some false) o
      else o
  | _, _ => o
  end.

Definition initializeQuestBoard (o : t) (boards : list Board) : t * list Board :=
  match questBoard o with
  | None =>
      (with_questBoard (Some (List.length boards)) o,
       boards ++ [QuestBoard.createQuestBoard Callback])
  | Some _ => (o, boards)
  end.

Definition createChatBubble (o : t) : t :=
  let bubbleX := BaseObstacle.sprite_x (base o) + UI_CONFIG.CHAT_BUBBLE.X_OFFSET in
  let bubbleY := BaseObstacle.sprite_y (base o) + UI_CONFIG.CHAT_BUBBLE.Y_OFFSET in
  let img := {| obj_x := bubbleX; obj_y := bubbleY; visible := true;
                setVisibleCalls := [] |} in
  let txt := {| obj_x := bubbleX; obj_y := bubbleY - 5; visible := true;
                setVisibleCalls := [] |} in
  let o := with_bubble (Some img) (Some txt) (chatBubbleVisible o) o in
  hideChatBubble o.

(** [setupObstacle]; it first scales the sprite and starts its sleeping
    animation, which only concern the display. *)
Definition setupObstacle (o : t) (boards : list Board) : t * list Board :=
  let o := createChatBubble o in
  initializeQuestBoard o boards.

(** [new OozeObstacle(scene, player)].  The base constructor runs first and
    calls [setupObstacle] on an object whose own fields are still undefined.
    When [super(...)] returns, the fields of the derived class are
    initialised in the order of their declarations.  The initialisers written
    in the class ([chatBubbleVisible = false], [questBoard = null]) are
    always executed and overwrite what [setupObstacle] had stored.  What
    happens to the fields declared without an initialiser
    ([chatBubbleImage], [chatBubbleText], [player]) depends on the compiler
    option [useDefineForClassFields], which the sources do not fix: when it
    is set (standard class fields) they are defined anew, as [undefined], so
    the obstacle loses its references to the image and the text made by
    [createChatBubble]; when it is unset they keep what [setupObstacle] gave
    them.  The constructor's body then assigns [player], the scene's
    player. *)
Definition new (useDefineForClassFields : bool) (boards : list Board)
  : t * list Board :=
  let groundY := GAME_CONFIG.height - WORLD_CONFIG.GROUND_OFFSET_FROM_BOTTOM in
  let oozeY := groundY - OBSTACLE_CONFIG.OOZE.Y_OFFSET in
  let o :=
    {| base := {| BaseObstacle.sprite_x := OBSTACLE_CONFIG.OOZE.X_POSITION;
                  BaseObstacle.sprite_y := oozeY;
                  BaseObstacle.interactionDistance :=
                    OBSTACLE_CONFIG.OOZE.INTERACTION_DISTANCE |};
       chatBubbleImage := None; chatBubbleText := None;
       chatBubbleVisible := None; questBoard := None |} in
  let (o, boards) := setupObstacle o boards in
  let o :=
    if useDefineForClassFields
    then with_bubble None None (chatBubbleVisible o) o
    else o in
  let o := with_bubble (chatBubbleImage o) (chatBubbleText o) (Some false) o in
  let o := with_questBoard None o in
  (o, boards).

(** [update] has an empty body. *)
Definition update (o : t) : t := o.

(** Runs a method of the board stored under [r]; a reference to no board
    cannot arise from [initializeQuestBoard] and is left without effect. *)
Definition onBoard (r : nat)
  (m : Board -> list Tweens.Tween -> Board * list Tweens.Tween)
  (boards : list Board) (tweens : list Tweens.Tween)
  : list Board * list Tweens.Tween :=
  match nth_error boards r with
  | Some q =>
      let (q, tweens) := m q tweens in
      (store r q boards, tweens)
  | None => (boards, tweens)
  end.

(** [onPlayerInteract], on the objects it reaches: the obstacle itself, the
    player it was given, and the scene's quest boards and tweens. *)
Definition onPlayerInteract (o : t) (player : Player.t)
  (boards : list Board) (tweens : list Tweens.Tween)
  : t * Player.t * list Board * list Tweens.Tween :=
  let o := hideChatBubble o in
  let player := Player.disableMovement player in
  let (o, boards) := initializeQuestBoard o boards in
  match questBoard o with
  | Some r =>
      let (boards, tweens) :=
        onBoard r (QuestBoard.showQuestBoard r (Some ReenableMovement))
          boards tweens in
      (o, player, boards, tweens)
  | None => (o, player, boards, tweens)
  end.

End OozeObstacle.

(* ------------------------------------------------------------------ *)
(** ** scenes/Game.ts

    [t] is the scene: the fields of the class, and the engine-owned objects
    the game systems reach through their [scene] reference (the quest boards
    constructed on the scene, the tween manager's list, the main camera's
    scroll position). *)

Module Game.

Record t := {
  backgroundManager : BackgroundManager.t;
  inputManager : InputManager.t;
  player : Player.t;
  oozeObstacle : OozeObstacle.t;
  isPlayerNearOoze : bool;
  questBoards : list OozeObstacle.Board;
  tweens : list Tweens.Tween;
  cameraScrollX : number
}.

Definition with_backgroundManager (b : BackgroundManager.t) (g : t) : t :=
  {| backgroundManager := b; inputManager := inputManager g;
     player := player g; oozeObstacle := oozeObstacle g;
     isPlayerNearOoze := isPlayerNearOoze g; questBoards := questBoards g;
     tweens := tweens g; cameraScrollX := cameraScrollX g |}.

Definition with_inputManager (im : InputManager.t) (g : t) : t :=
  {| backgroundManager := backgroundManager g; inputManager := im;
     player := player g; oozeObstacle := oozeObstacle g;
     isPlayerNearOoze := isPlayerNearOoze g; questBoards := questBoards g;
     tweens := tweens g; cameraScrollX := cameraScrollX g |}.

Definition with_player (p : Player.t) (g : t) : t :=
  {| backgroundManager := backgroundManager g; inputManager := inputManager g;
     player := p; oozeObstacle := oozeObstacle g;
     isPlayerNearOoze := isPlayerNearOoze g; questBoards := questBoards g;
     tweens := tweens g; cameraScrollX := cameraScrollX g |}.

Definition with_oozeObstacle (o : OozeObstacle.t) (g : t) : t :=
  {| backgroundManager := backgroundManager g; inputManager := inputManager g;
     player := player g; oozeObstacle := o;
     isPlayerNearOoze := isPlayerNearOoze g; questBoards := questBoards g;
     tweens := tweens g; cameraScrollX := cameraScrollX g |}.

Definition with_isPlayerNearOoze (b : bool) (g : t) : t :=
  {| backgroundManager := backgroundManager g; inputManager := inputManager g;
     player := player g; oozeObstacle := oozeObstacle g;
     isPlayerNearOoze := b; questBoards := questBoards g;
     tweens := tweens g; cameraScrollX := cameraScrollX g |}.

Definition with_scene (boards : list OozeObstacle.Board)
  (tws : list Tweens.Tween) (g : t) : t :=
  {| backgroundManager := backgroundManager g; inputManager := inputManager g;
     player := player g; oozeObstacle := oozeObstacle g;
     isPlayerNearOoze := isPlayerNearOoze g; questBoards := boards;
     tweens := tws; cameraScrollX := cameraScrollX g |}.

(** [InputManager.setupControls]: every key starts released, its tick
    behind the clock. *)
Definition keyUp : InputManager.Key :=
  {| InputManager.isDown := false; InputManager.justDown := false;
     InputManager.tickDue := true |}.

Definition setupControls : InputManager.t :=
  {| InputManager.cursors_left := keyUp; InputManager.cursors_right := keyUp;
     InputManager.cursors_up := keyUp; InputManager.spaceKey := keyUp;
     InputManager.shiftKey := keyUp; InputManager.interactKey := keyUp |}.

(** [create]: [createGameSystems], [createGameElements], then the collision
    and camera set-up.  [setupCamera] makes the main camera follow the
    player: [startFollow] centres the viewport on the sprite at once, which
    leaves the scroll at the sprite's position minus half the viewport's
    width (the camera bounds of [setupGameWorld] lie half a world away).
    The parameter is the compiler option that [OozeObstacle.new] depends
    on. *)
Definition create (useDefineForClassFields : bool) : t :=
  let inputManager := setupControls in
  let player := Player.createPlayer in
  let backgroundManager := BackgroundManager.createBackground in
  let (oozeObstacle, boards) := OozeObstacle.new useDefineForClassFields [] in
  {| backgroundManager := backgroundManager; inputManager := inputManager;
     player := player; oozeObstacle := oozeObstacle;
     isPlayerNearOoze := false; questBoards := boards;
     tweens := [];
     cameraScrollX :=
       Player.x (Player.sprite player) - GAME_CONFIG.width / 2 |}.

Definition onPlayerInteract (g : t) : t :=
  let '(o, p, boards, tws) :=
    OozeObstacle.onPlayerInteract (oozeObstacle g) (player g)
      (questBoards g) (tweens g) in
  with_scene boards tws (with_player p (with_oozeObstacle o g)).

(** [checkObstacleInteractions]; the obstacle exists once [create] has run,
    so the method's first guard never returns.  In
    [isNearOoze && this.inputManager.isInteractPressed()] the key's latch is
    read, and cleared, only when [isNearOoze] holds. *)
Definition checkObstacleInteractions (g : t) : t :=
  let playerPosition := Player.getPosition (player g) in
  let isNearOoze :=
    BaseObstacle.isPlayerNearby playerPosition
      (OozeObstacle.base (oozeObstacle g)) in
  let g :=
    if negb (Bool.eqb isNearOoze (isPlayerNearOoze g)) then
      let g := with_isPlayerNearOoze isNearOoze g in
      if isNearOoze then
        with_oozeObstacle (OozeObstacle.showChatBubble (oozeObstacle g)) g
      else
        with_oozeObstacle (OozeObstacle.hideChatBubble (oozeObstacle g)) g
    else g in
  if isNearOoze then
    let (pressed, im) := InputManager.isInteractPressed (inputManager g) in
    let g := with_inputManager im g in
    if pressed then onPlayerInteract g else g
  else g.

Definition update (g : t) : t :=
  let g :=
    with_backgroundManager
      (BackgroundManager.updateParallax (cameraScrollX g) (backgroundManager g))
      g in
  let (im, p) := Player.update (inputManager g) (player g) in
  let g := with_player p (with_inputManager im g) in
  let g := with_oozeObstacle (OozeObstacle.update (oozeObstacle g)) g in
  checkObstacleInteractions g.

(** *** The engine around the scene *)

(** What the engine has written when a frame's [update] starts: the state of
    the keys, the player's body after the physics step, and the camera. *)
Record Host := {
  keys : InputManager.t;
  body_x : number;
  body_y : number;
  body_velocityX : number;
  body_velocityY : number;
  body_touching_down : bool;
  scrollX : number
}.

Definition hostWrite (h : Host) (g : t) : t :=
  let s := Player.sprite (player g) in
  let s :=
    {| Player.x := body_x h; Player.y := body_y h;
       Player.velocityX := body_velocityX h;
       Player.velocityY := body_velocityY h;
       Player.flipX := Player.flipX s;
       Player.currentAnim := Player.currentAnim s;
       Player.touching_down := body_touching_down h |} in
  {| backgroundManager := backgroundManager g; inputManager := keys h;
     player := Player.with_sprite s (player g);
     oozeObstacle := oozeObstacle g;
     isPlayerNearOoze := isPlayerNearOoze g; questBoards := questBoards g;
     tweens := tweens g; cameraScrollX := scrollX h |}.

(** Running the obstacle's close-callback: its closure holds the scene's
    player. *)
Definition runCallback (cb : OozeObstacle.Callback) (g : t) : t :=
  match cb with
  | OozeObstacle.ReenableMovement =>
      with_player (Player.enableMovement (player g)) g
  end.

(** A ['pointerdown'] on the OK button of the board stored under [r]: the
    listener runs, then the callbacks it invokes.  The engine delivers the
    event only while the button is displayed; here it may come in any
    state, which allows more behaviours than the engine does. *)
Definition pointerdown (r : nat) (g : t) : t :=
  match nth_error (questBoards g) r with
  | Some q =>
      let '((q, tws), invoked) :=
        QuestBoard.okButton_pointerdown r q (tweens g) in
      let boards := store r q (questBoards g) in
      fold_left (fun g cb => runCallback cb g) invoked (with_scene boards tws g)
  | None => g
  end.

(** The tween manager's update after [delta] milliseconds: a tween whose
    elapsed time reaches its duration completes on its target and leaves the
    list, the others keep running. *)
Fixpoint tweensUpdate (delta : Z) (tws : list Tweens.Tween)
  (boards : list OozeObstacle.Board)
  : list Tweens.Tween * list OozeObstacle.Board :=
  match tws with
  | [] => ([], boards)
  | tw :: rest =>
      let e := (Tweens.elapsed tw + delta)%Z in
      if (Tweens.duration tw <=? e)%Z then
        let boards :=
          match nth_error boards (Tweens.targets tw) with
          | Some q =>
              store (Tweens.targets tw) (QuestBoard.tweenComplete tw q) boards
          | None => boards
          end in
        tweensUpdate delta rest boards
      else
        let (rest, boards) := tweensUpdate delta rest boards in
        (Tweens.with_elapsed e tw :: rest, boards)
  end.

(** What happens to the scene once created: the engine plays a frame, the
    user presses an OK button, the tween manager advances. *)
Inductive Event :=
| Frame (h : Host)
| PointerDownOk (r : nat)
| TweensUpdate (delta : Z).

Definition step (e : Event) (g : t) : t :=
  match e with
  | Frame h => update (hostWrite h g)
  | PointerDownOk r => pointerdown r g
  | TweensUpdate delta =>
      let (tws, boards) := tweensUpdate delta (tweens g) (questBoards g) in
      with_scene boards tws g
  end.

Definition run (es : list Event) (g : t) : t :=
  fold_left (fun g e => step e g) es g.

End Game.

(* ------------------------------------------------------------------ *)
(** ** main.ts

    The module keeps one handle, [gameInstance], on the running engine
    instance.  The page's state is that handle and the engine instances
    constructed so far, each with the container it was given and whether it
    has been destroyed; a handle is an index into that list. *)

Module Main.

Record PhaserGame := {
  parent : string;
  width : number;
  height : number;
  destroyed : bool
}.

Record t := {
  games : list PhaserGame;
  gameInstance : option nat
}.

(** The module as loaded: no instance yet. *)
Definition loaded : t := {| games := []; gameInstance := None |}.

(** [game.destroy(true, false)]. *)
Definition destroy (g : PhaserGame) : PhaserGame :=
  {| parent := parent g; width := width g; height := height g;
     destroyed := true |}.

(** [new Game({ ...gameConfig, parent: parentElementId })]. *)
Definition newGame (parentElementId : string) : PhaserGame :=
  {| parent := parentElementId; width := GAME_CONFIG.width;
     height := GAME_CONFIG.height; destroyed := false |}.

(** [StartGame]: the previous instance, if any, is destroyed and the handle
    cleared; a new instance is constructed, stored in the handle and
    returned. *)
Definition StartGame (parentElementId : string) (st : t) : t * nat :=
  let st :=
    match gameInstance st with
    | Some i =>
        {| games :=
             match nth_error (games st) i with
             | Some g => store i (destroy g) (games st)
             | None => games st
             end;
           gameInstance := None |}
    | None => st
    end in
  let i := List.length (games st) in
  ({| games := games st ++ [newGame parentElementId]; gameInstance := Some i |},
   i).

End Main.

(* ================================================================== *)
(** * Vocabulary of the properties *)

(** The speed a frame selects -- the run speed when the running query
    answers true, the walk speed otherwise -- and the horizontal velocity it
    gives to a player who can move: minus the speed when left is held, else
    plus the speed when right is held, else zero. *)
Definition selectedSpeed (im : InputManager.t) : number :=
  if fst (InputManager.isRunning im)
  then PLAYER_CONFIG.RUN_SPEED else PLAYER_CONFIG.WALK_SPEED.

Definition steering (im : InputManager.t) : number :=
  if InputManager.isMovingLeft im then - selectedSpeed im
  else if InputManager.isMovingRight im then selectedSpeed im
  else 0.

(** A fade-out of the board stored under [r] is under way: the scene's tween
    list holds a tween on it that carries the hiding completion closure. *)
Definition isFadeOutOf (r : nat) (tw : Tweens.Tween) : bool :=
  Nat.eqb (Tweens.targets tw) r
  && match Tweens.onComplete tw with
     | Some Tweens.HideContainer => true
     | None => false
     end.

Definition closing (r : nat) (g : Game.t) : bool :=
  existsb (isFadeOutOf r) (Game.tweens g).

(** What holds of the boards in every state the scene reaches. *)
Record PanelInv (g : Game.t) : Prop := {
  visible_is_referenced :
    forall r q, nth_error (Game.questBoards g) r = Some q ->
      QuestBoard.isVisible q = true ->
      OozeObstacle.questBoard (Game.oozeObstacle g) = Some r;
  callback_is_referenced :
    forall r q cb, nth_error (Game.questBoards g) r = Some q ->
      QuestBoard.onCloseCallback q = Some cb ->
      OozeObstacle.questBoard (Game.oozeObstacle g) = Some r;
  open_freezes_player :
    forall r q, nth_error (Game.questBoards g) r = Some q ->
      QuestBoard.isVisible q = true ->
      closing r g = false ->
      Player.canMove (Game.player g) = false
}.

(** The board an interaction opens: the one already referenced, or the one
    [initializeQuestBoard] is about to construct. *)
Definition boardToOpen (o : OozeObstacle.t) (boards : list OozeObstacle.Board) : nat :=
  match OozeObstacle.questBoard o with
  | Some r => r
  | None => List.length boards
  end.

(** The visibility flag of the board stored under [r], when there is one. *)
Definition boardIsVisible (r : nat) (g : Game.t) : option bool :=
  option_map QuestBoard.isVisible (nth_error (Game.questBoards g) r).

(** The [setVisible] calls received so far by the image the obstacle holds;
    the text receives the same ones (see [BubbleSync]). *)
Definition imageCalls (o : OozeObstacle.t) : list bool :=
  match OozeObstacle.chatBubbleImage o with
  | Some img => OozeObstacle.setVisibleCalls img
  | None => []
  end.

Definition bubbleCalls (g : Game.t) : list bool := imageCalls (Game.oozeObstacle g).

(** The obstacle's flag [chatBubbleVisible]. *)
Definition bubbleShown (g : Game.t) : bool :=
  OozeObstacle.truthy (OozeObstacle.chatBubbleVisible (Game.oozeObstacle g)).

(** The proximity predicate at the player's current position. *)
Definition nearOoze (g : Game.t) : bool :=
  BaseObstacle.isPlayerNearby (Player.getPosition (Game.player g))
    (OozeObstacle.base (Game.oozeObstacle g)).

(** The latch of the interact key, as a frame finds it. *)
Definition interactDown (h : Game.Host) : bool :=
  InputManager.justDown (InputManager.interactKey (Game.keys h)).

(** The obstacle's anchor point and radius, as the constructor passes them
    to the base class; they are the same whatever the compiler option. *)
Definition oozeBase : BaseObstacle.t :=
  OozeObstacle.base (fst (OozeObstacle.new false [])).


(** The obstacle holds its bubble's image and text: what the guards of
    [showChatBubble] and [hideChatBubble] ask of the two fields. *)
Definition holdsBubble (o : OozeObstacle.t) : bool :=
  match OozeObstacle.chatBubbleImage o, OozeObstacle.chatBubbleText o with
  | Some _, Some _ => true
  | _, _ => false
  end.

Definition bubbleHeld (g : Game.t) : bool := holdsBubble (Game.oozeObstacle g).

(** The obstacle holds neither object, and its flag is false. *)
Definition lostBubble (o : OozeObstacle.t) : Prop :=
  OozeObstacle.chatBubbleImage o = None
  /\ OozeObstacle.chatBubbleText o = None
  /\ OozeObstacle.chatBubbleVisible o = Some false.



(** The scene in a frame when [checkObstacleInteractions] starts: the engine
    has written its part, and the background, the player and the obstacle
    have been updated. *)
Definition beforeCheck (h : Game.Host) (g : Game.t) : Game.t :=
  let g := Game.hostWrite h g in
  let moved := Player.update (Game.inputManager g) (Game.player g) in
  let g :=
    Game.with_backgroundManager
      (BackgroundManager.updateParallax (Game.cameraScrollX g)
         (Game.backgroundManager g)) g in
  let g := Game.with_player (snd moved) (Game.with_inputManager (fst moved) g) in
  Game.with_oozeObstacle (OozeObstacle.update (Game.oozeObstacle g)) g.

(** The debounced toggle of [checkObstacleInteractions], on the obstacle. *)
Definition toggleBubble (tracked near : bool) (o : OozeObstacle.t) : OozeObstacle.t :=
  if negb (Bool.eqb near tracked) then
    if near then OozeObstacle.showChatBubble o else OozeObstacle.hideChatBubble o
  else o.

(** The bubble's [setVisible] calls of one frame, from the proximity boolean
    kept from the previous frame ([tracked]), the flag [shown], the
    proximity boolean of this frame ([near]) and the latch of the interact
    key ([pressed]): a show at an upward crossing, then a hide of a shown
    bubble at a downward crossing or at an interaction. *)
Definition frameEffects (tracked shown near pressed : bool) : list bool :=
  let up := negb tracked && near in
  let down := tracked && negb near in
  (if up then [true] else [])
  ++ (if (up || shown) && (down || (near && pressed)) then [false] else []).

(** In every state the scene reaches, a bubble flagged visible is a bubble
    whose objects the obstacle holds, and goes with a proximity boolean that
    is true. *)
Definition BubbleInv (g : Game.t) : Prop :=
  bubbleShown g = true ->
  bubbleHeld g = true /\ Game.isPlayerNearOoze g = true.


(** What holds of the scene's boards in every state it reaches: one board
    exists while the obstacle references none, two once it references the
    second; an open board holds the callback that re-enables movement. *)
Record SceneInv (g : Game.t) : Prop := {
  boards_count :
    (OozeObstacle.questBoard (Game.oozeObstacle g) = None
     /\ List.length (Game.questBoards g) = 1%nat)
    \/ (OozeObstacle.questBoard (Game.oozeObstacle g) = Some 1%nat
        /\ List.length (Game.questBoards g) = 2%nat);
  visible_has_callback :
    forall r q, nth_error (Game.questBoards g) r = Some q ->
      QuestBoard.isVisible q = true ->
      QuestBoard.onCloseCallback q = Some OozeObstacle.ReenableMovement
}.

(** The image and the text the obstacle holds have received the same calls
    and are in the state their last call left them in -- displayed, as the
    engine creates them, when they have received none -- and once a call has
    been made the flag says what is displayed. *)
Definition BubbleSync (o : OozeObstacle.t) : Prop :=
  forall img txt,
    OozeObstacle.chatBubbleImage o = Some img ->
    OozeObstacle.chatBubbleText o = Some txt ->
    OozeObstacle.setVisibleCalls txt = OozeObstacle.setVisibleCalls img
    /\ OozeObstacle.visible txt = OozeObstacle.visible img
    /\ OozeObstacle.visible img = List.last (OozeObstacle.setVisibleCalls img) true
    /\ (OozeObstacle.setVisibleCalls img = []
        \/ OozeObstacle.visible img
           = OozeObstacle.truthy (OozeObstacle.chatBubbleVisible o)).

(** The background after the frames whose camera scrolls are [scrolls],
    oldest first. *)
Definition parallaxFrames (scrolls : list number) (bg : BackgroundManager.t)
  : BackgroundManager.t :=
  fold_left (fun b c => BackgroundManager.updateParallax c b) scrolls bg.

(** The page after [StartGame] has been called with each container of
    [parents] in turn. *)
Definition startedWith (parents : list string) : Main.t :=
  fold_left (fun st p => fst (Main.StartGame p st)) parents Main.loaded.

(** Every instance but the one under the handle has been destroyed. *)
Definition OneRunning (st : Main.t) : Prop :=
  forall i g, nth_error (Main.games st) i = Some g ->
    Main.destroyed g = negb (match Main.gameInstance st with
                             | Some j => Nat.eqb i j
                             | None => false
                             end).

(** A fact about the scene as created holds with the compiler option unset
    and with the option set. *)
Definition inBothBuilds (P : Game.t -> Prop) : Prop :=
  P (Game.create false) /\ P (Game.create true).

(** ** States and inputs used as instances *)

(** Left and right held together. *)
Definition bothHeld : InputManager.t :=
  {| InputManager.cursors_left :=
       {| InputManager.isDown := true; InputManager.justDown := false;
          InputManager.tickDue := true |};
     InputManager.cursors_right :=
       {| InputManager.isDown := true; InputManager.justDown := true;
          InputManager.tickDue := false |};
     InputManager.cursors_up := Game.keyUp; InputManager.spaceKey := Game.keyUp;
     InputManager.shiftKey := Game.keyUp; InputManager.interactKey := Game.keyUp |}.

(** Space and right held. *)
Definition jumpHeld : InputManager.t :=
  {| InputManager.cursors_left := Game.keyUp;
     InputManager.cursors_right :=
       {| InputManager.isDown := true; InputManager.justDown := false;
          InputManager.tickDue := true |};
     InputManager.cursors_up := Game.keyUp;
     InputManager.spaceKey :=
       {| InputManager.isDown := true; InputManager.justDown := true;
          InputManager.tickDue := false |};
     InputManager.shiftKey := Game.keyUp; InputManager.interactKey := Game.keyUp |}.

(** A player standing on the ground, with movement disabled. *)
Definition groundedDisabled : Player.t :=
  {| Player.sprite :=
       {| Player.x := 1150; Player.y := 930;
          Player.velocityX := 200; Player.velocityY := 0;
          Player.flipX := false; Player.currentAnim := Some "idle"%string;
          Player.touching_down := true |};
     Player.canMove := false;
     Player.dustSprites := [] |}.

(** A board opened once, with the scene's tweens after the call. *)
Definition openedOnce : QuestBoard.t bool * list Tweens.Tween :=
  QuestBoard.showQuestBoard 1 (Some true) (QuestBoard.createQuestBoard bool) [].

(** The board of the obstacle once opened by an interaction. *)
Definition openBoard : OozeObstacle.Board :=
  fst (QuestBoard.showQuestBoard 1 (Some OozeObstacle.ReenableMovement)
         (QuestBoard.createQuestBoard OozeObstacle.Callback) []).

(** The player stands 50 pixels left of the obstacle, level with it, no key
    held. *)
Definition standNear : Game.Host :=
  {| Game.keys := Game.setupControls;
     Game.body_x := 1150; Game.body_y := 930;
     Game.body_velocityX := 0; Game.body_velocityY := 0;
     Game.body_touching_down := true; Game.scrollX := 190 |}.

(** The same place, and the interact key has just gone down. *)
Definition interactNear : Game.Host :=
  {| Game.keys :=
       InputManager.set_interactKey
         {| InputManager.isDown := true; InputManager.justDown := true;
            InputManager.tickDue := false |}
         Game.setupControls;
     Game.body_x := 1150; Game.body_y := 930;
     Game.body_velocityX := 0; Game.body_velocityY := 0;
     Game.body_touching_down := true; Game.scrollX := 190 |}.

(** The player stands 300 pixels left of the obstacle, no key held. *)
Definition standFar : Game.Host :=
  {| Game.keys := Game.setupControls;
     Game.body_x := 900; Game.body_y := 930;
     Game.body_velocityX := 0; Game.body_velocityY := 0;
     Game.body_touching_down := true; Game.scrollX := 0 |}.

(** A player who can move, standing on the ground. *)
Definition groundedEnabled : Player.t := Player.enableMovement groundedDisabled.

(** A player in the air, falling, with a run animation left from the ground. *)
Definition airborne : Player.t :=
  {| Player.sprite :=
       {| Player.x := 500; Player.y := 600;
          Player.velocityX := 0; Player.velocityY := 120;
          Player.flipX := false; Player.currentAnim := Some "run"%string;
          Player.touching_down := false |};
     Player.canMove := true;
     Player.dustSprites := [] |}.

(** A closed board that still holds the callback of an earlier opening. *)
Definition closedWithCallback : QuestBoard.t bool :=
  {| QuestBoard.container :=
       {| QuestBoard.visible := false; QuestBoard.alpha := 0;
          QuestBoard.scaleX := 0.8; QuestBoard.scaleY := 0.8 |};
     QuestBoard.isVisible := false;
     QuestBoard.onCloseCallback := Some true |}.

(** The obstacle as [setupObstacle] leaves it, inside the base constructor:
    it holds the image and the text just made, and its flag is still
    undefined. *)
Definition oozeInSetup : OozeObstacle.t :=
  fst (OozeObstacle.setupObstacle
         {| OozeObstacle.base := oozeBase;
            OozeObstacle.chatBubbleImage := None;
            OozeObstacle.chatBubbleText := None;
            OozeObstacle.chatBubbleVisible := None;
            OozeObstacle.questBoard := None |} []).


(* ================================================================== *)
(** * Properties *)

(** ** Input Manager *)

(** C9 -- For every keyboard state the direction query answers -1, 0 or 1,
    and it answers -1 whenever the left key is held together with the right
    key: left is tested first. *)
Theorem C9_direction_range_and_left_priority (im : InputManager.t) :
  (InputManager.getHorizontalDirection im = -1
   \/ InputManager.getHorizontalDirection im = 0
   \/ InputManager.getHorizontalDirection im = 1)
  /\ (InputManager.isMovingLeft im && InputManager.isMovingRight im = true ->
      InputManager.getHorizontalDirection im = -1).
Proof.
  unfold InputManager.getHorizontalDirection.
  destruct (InputManager.isMovingLeft im), (InputManager.isMovingRight im);
    simpl; split; auto; discriminate.
Qed.

Lemma C9_witness :
  InputManager.isMovingLeft bothHeld && InputManager.isMovingRight bothHeld = true
  /\ InputManager.getHorizontalDirection bothHeld = -1.
Proof.
  split.
  - reflexivity.
  - apply (proj2 (C9_direction_range_and_left_priority bothHeld)). reflexivity.
Defined.

(** ** Player *)

(** The running query touches the shift key's tick only: the other keys,
    and what the other queries answer, are as before. *)
Lemma isRunning_keys (im : InputManager.t) :
  let im' := snd (InputManager.isRunning im) in
  fst (InputManager.isRunning im)
  = InputManager.isDown (InputManager.shiftKey im)
    && InputManager.tickDue (InputManager.shiftKey im)
  /\ InputManager.cursors_left im' = InputManager.cursors_left im
  /\ InputManager.cursors_right im' = InputManager.cursors_right im
  /\ InputManager.cursors_up im' = InputManager.cursors_up im
  /\ InputManager.spaceKey im' = InputManager.spaceKey im
  /\ InputManager.interactKey im' = InputManager.interactKey im
  /\ InputManager.isDown (InputManager.shiftKey im')
     = InputManager.isDown (InputManager.shiftKey im)
  /\ InputManager.justDown (InputManager.shiftKey im')
     = InputManager.justDown (InputManager.shiftKey im)
  /\ InputManager.isJumping im' = InputManager.isJumping im
  /\ fst (InputManager.isRunning im') = false.
Proof.
  destruct im as [l r u s [sd sj st] i].
  destruct sd, st; repeat split.
Qed.

(** A frame of a player whose movement is disabled: the guard at the head of
    [handleMovement] zeroes the horizontal velocity and returns, no key
    queried. *)
Lemma handleMovement_disabled (im : InputManager.t) (p : Player.t) :
  Player.canMove p = false ->
  Player.handleMovement im p
  = (im, Player.with_sprite (Player.setVelocityX 0 (Player.sprite p)) p).
Proof.
  intros H. unfold Player.handleMovement. rewrite H. reflexivity.
Qed.

(** What [update] does to the input manager: the running query of a player
    who can move, and nothing else. *)
Lemma update_keys (im : InputManager.t) (p : Player.t) :
  fst (Player.update im p)
  = if Player.canMove p then snd (InputManager.isRunning im) else im.
Proof.
  unfold Player.update, Player.handleMovement.
  destruct (Player.canMove p); simpl; [|reflexivity].
  destruct (InputManager.isRunning im) as [b im']. reflexivity.
Qed.

Lemma update_enabled_velocityX (im : InputManager.t) (p : Player.t) :
  Player.canMove p = true ->
  Player.velocityX (Player.sprite (snd (Player.update im p))) = steering im.
Proof.
  intros H.
  unfold Player.update, Player.handleMovement, steering, selectedSpeed,
    InputManager.getHorizontalDirection.
  rewrite H. simpl.
  destruct (InputManager.isRunning im) as [b im']. simpl.
  destruct (InputManager.isMovingLeft im), (InputManager.isMovingRight im),
    b, (InputManager.isJumping im'),
    (Player.touching_down (Player.sprite p)); reflexivity.
Qed.

(** [update] never changes the movement flag. *)
Lemma update_canMove (im : InputManager.t) (p : Player.t) :
  Player.canMove (snd (Player.update im p)) = Player.canMove p.
Proof.
  destruct p as [s c d]. unfold Player.update, Player.handleMovement. simpl.
  destruct c; simpl; [|reflexivity].
  destruct (InputManager.isRunning im) as [b im']. simpl.
  destruct (negb _), (Player.touching_down s), (InputManager.isJumping im');
    reflexivity.
Qed.

(** C3 (as amended) -- In every frame in which the movement-enabled flag is
    false, [update] sets the horizontal velocity to zero whatever the input,
    and leaves the vertical velocity unchanged: gravity, which the engine
    applies, is not blocked, and no jump is started either -- the animation
    and the dust sprites stay as they were, and the frame's result is the
    same for every input, of which no key is queried. *)
Theorem C3_disabled_update (im : InputManager.t) (p : Player.t) :
  Player.canMove p = false ->
  let p' := snd (Player.update im p) in
  Player.velocityX (Player.sprite p') = 0
  /\ Player.velocityY (Player.sprite p') = Player.velocityY (Player.sprite p)
  /\ Player.currentAnim (Player.sprite p') = Player.currentAnim (Player.sprite p)
  /\ Player.dustSprites p' = Player.dustSprites p
  /\ (forall im', snd (Player.update im' p) = p')
  /\ fst (Player.update im p) = im.
Proof.
  intros H p'. subst p'. unfold Player.update.
  rewrite handleMovement_disabled by exact H.
  repeat split. intros im'. now rewrite handleMovement_disabled.
Qed.

Lemma C3_witness :
  Player.canMove groundedDisabled = false
  /\ Player.velocityX
       (Player.sprite (snd (Player.update jumpHeld groundedDisabled))) = 0
  /\ Player.velocityY
       (Player.sprite (snd (Player.update jumpHeld groundedDisabled))) = 0.
Proof.
  split; [reflexivity|].
  pose proof (C3_disabled_update jumpHeld groundedDisabled eq_refl) as H.
  simpl in H. destruct H as (Hx & Hy & _). split; [exact Hx | exact Hy].
Defined.

(** C3, the claim as written fails: with the jump key held, a grounded
    player whose movement is disabled does not jump (the vertical velocity
    stays 0, no jump animation, no dust), while the same frame of the same
    player with movement enabled sets the jump velocity. *)
Lemma C3_counterexample :
  let frozen := snd (Player.update jumpHeld groundedDisabled) in
  InputManager.isJumping jumpHeld = true
  /\ Player.velocityY (Player.sprite frozen) = 0
  /\ Player.currentAnim (Player.sprite frozen) = Some "idle"%string
  /\ Player.dustSprites frozen = []
  /\ Player.velocityY
       (Player.sprite
          (snd (Player.update jumpHeld (Player.enableMovement groundedDisabled))))
     = PLAYER_CONFIG.JUMP_VELOCITY.
Proof. repeat split. Qed.

(** C10 -- After [disableMovement], whatever frames are played while
    disabled, [enableMovement] gives the very next [update] full directional
    control: it reads the input and sets the horizontal velocity to minus
    the walk or run speed (left held), to plus that speed (right held
    alone), or to zero (no direction held); and when [update] directly
    follows, its result is the one it would have produced had movement never
    been disabled. *)
Theorem C10_enable_after_disable
  (during : list InputManager.t) (im : InputManager.t) (p : Player.t) :
  let suspended :=
    fold_left (fun q i => snd (Player.update i q)) during
      (Player.disableMovement p) in
  Player.velocityX
    (Player.sprite (snd (Player.update im (Player.enableMovement suspended))))
  = steering im
  /\ Player.update im (Player.enableMovement (Player.disableMovement p))
     = Player.update im (Player.enableMovement p).
Proof.
  intros suspended. split.
  - apply update_enabled_velocityX. reflexivity.
  - unfold Player.update, Player.handleMovement,
      InputManager.getHorizontalDirection. simpl.
    destruct (InputManager.isRunning im) as [b im']. simpl.
    destruct (InputManager.isMovingLeft im), (InputManager.isMovingRight im),
      b, (InputManager.isJumping im'),
      (Player.touching_down (Player.sprite p)); reflexivity.
Qed.

(** ** Background Manager *)

(** C8 -- One pass of [updateParallax] sets the texture offset of each
    camera-driven tiling layer to the camera scroll times the layer's speed
    coefficient (coefficient 0.3 at scroll 100 gives exactly 30), while the
    back-most layer adds its constant to its own offset, whatever the camera
    scroll is. *)
Theorem C8_updateParallax (cameraScrollX : number) (bg : BackgroundManager.t) :
  let bg' := BackgroundManager.updateParallax cameraScrollX bg in
  let offset := BackgroundManager.tilePositionX in
  offset (BackgroundManager.skyGlow bg')
    = cameraScrollX * BACKGROUND_CONFIG.SCROLL_SPEEDS.SKY_GLOW
  /\ offset (BackgroundManager.clouds bg')
    = cameraScrollX * BACKGROUND_CONFIG.SCROLL_SPEEDS.CLOUDS
  /\ offset (BackgroundManager.midgroundRocks bg')
    = cameraScrollX * BACKGROUND_CONFIG.SCROLL_SPEEDS.MIDGROUND_ROCKS
  /\ offset (BackgroundManager.foregroundRocks bg')
    = cameraScrollX * BACKGROUND_CONFIG.SCROLL_SPEEDS.FOREGROUND_ROCKS
  /\ offset (BackgroundManager.groundLayer bg')
    = cameraScrollX * BACKGROUND_CONFIG.SCROLL_SPEEDS.GROUND_LAYER
  /\ offset (BackgroundManager.backSky bg')
    = offset (BackgroundManager.backSky bg)
      + BACKGROUND_CONFIG.SCROLL_SPEEDS.BACK_SKY
  /\ (forall otherScrollX,
        BackgroundManager.backSky
          (BackgroundManager.updateParallax otherScrollX bg)
        = BackgroundManager.backSky bg')
  /\ BACKGROUND_CONFIG.SCROLL_SPEEDS.FOREGROUND_ROCKS = 0.3
  /\ offset
       (BackgroundManager.foregroundRocks
          (BackgroundManager.updateParallax 100 bg))
     = 30.
Proof. repeat split. Qed.

(** ** Quest Board *)

(** C7 -- [showQuestBoard] is idempotent while the panel is open.  A first
    call leaves the panel open, and a second call, whatever callback it is
    given, returns the board -- its container and its stored close-callback
    included -- and the scene's tweens as they were: nothing visible changes,
    no transition is added, the callback is not overwritten.  The same holds
    of a call on any board whose visibility flag is true. *)
Theorem C7_show_idempotent (Callback : Type) (self : nat)
  (first onClose : option Callback) (q : QuestBoard.t Callback)
  (tweens : list Tweens.Tween) :
  let opened := QuestBoard.showQuestBoard self first q tweens in
  QuestBoard.isVisible (fst opened) = true
  /\ QuestBoard.showQuestBoard self onClose (fst opened) (snd opened) = opened
  /\ (QuestBoard.isVisible q = true ->
      QuestBoard.showQuestBoard self onClose q tweens = (q, tweens)).
Proof.
  unfold QuestBoard.showQuestBoard.
  destruct (QuestBoard.isVisible q) eqn:Hv; simpl.
  - rewrite Hv. simpl. auto.
  - repeat split. discriminate.
Qed.

Lemma C7_witness :
  QuestBoard.isVisible (fst openedOnce) = true
  /\ QuestBoard.showQuestBoard 1 (Some false) (fst openedOnce) (snd openedOnce)
     = (fst openedOnce, snd openedOnce).
Proof.
  split; [reflexivity|].
  exact (proj2 (proj2 (C7_show_idempotent bool 1 None (Some false)
                         (fst openedOnce) (snd openedOnce)))
           eq_refl).
Defined.

(** ** References into the scene's lists *)

Lemma nth_error_store {A : Type} (r : nat) (a : A) (l : list A) (r' : nat) :
  (r < List.length l)%nat ->
  nth_error (store r a l) r' = if Nat.eqb r' r then Some a else nth_error l r'.
Proof.
  unfold store. revert l r'.
  induction r as [|r IH]; intros [|x l] r' Hlt; simpl in Hlt; try lia.
  - destruct r'; reflexivity.
  - destruct r' as [|r']; [reflexivity|].
    simpl. apply IH. lia.
Qed.

Lemma nth_error_in_range {A : Type} (l : list A) (r : nat) (a : A) :
  nth_error l r = Some a -> (r < List.length l)%nat.
Proof.
  intros H. apply nth_error_Some. rewrite H. discriminate.
Qed.

Lemma nth_error_snoc {A : Type} (l : list A) (a : A) (r : nat) :
  nth_error (l ++ [a]) r
  = if Nat.eqb r (List.length l) then Some a else nth_error l r.
Proof.
  revert r. induction l as [|x l IH]; intros [|r]; simpl; try reflexivity.
  - destruct r; reflexivity.
  - apply IH.
Qed.

(** ** Runs of the scene *)

Lemma run_cons (e : Game.Event) (es : list Game.Event) (g : Game.t) :
  Game.run (e :: es) g = Game.run es (Game.step e g).
Proof. reflexivity. Qed.

Lemma run_nil (g : Game.t) : Game.run [] g = g.
Proof. reflexivity. Qed.

(** A frame is the final check, run on the scene as updated so far; that
    scene has the obstacle, the proximity boolean, the boards and the tweens
    of before the frame, and the interact key as the engine set it. *)
Lemma step_frame (h : Game.Host) (g : Game.t) :
  Game.step (Game.Frame h) g = Game.checkObstacleInteractions (beforeCheck h g).
Proof.
  unfold Game.step, Game.update, beforeCheck.
  change (Game.inputManager
            (Game.with_backgroundManager
               (BackgroundManager.updateParallax
                  (Game.cameraScrollX (Game.hostWrite h g))
                  (Game.backgroundManager (Game.hostWrite h g)))
               (Game.hostWrite h g)))
    with (Game.inputManager (Game.hostWrite h g)).
  change (Game.player
            (Game.with_backgroundManager
               (BackgroundManager.updateParallax
                  (Game.cameraScrollX (Game.hostWrite h g))
                  (Game.backgroundManager (Game.hostWrite h g)))
               (Game.hostWrite h g)))
    with (Game.player (Game.hostWrite h g)).
  cbv zeta.
  destruct (Player.update (Game.inputManager (Game.hostWrite h g))
              (Game.player (Game.hostWrite h g))) as [im p].
  reflexivity.
Qed.

Lemma beforeCheck_fields (h : Game.Host) (g : Game.t) :
  let g1 := beforeCheck h g in
  Game.oozeObstacle g1 = Game.oozeObstacle g
  /\ Game.isPlayerNearOoze g1 = Game.isPlayerNearOoze g
  /\ Game.questBoards g1 = Game.questBoards g
  /\ Game.tweens g1 = Game.tweens g
  /\ Game.player g1
     = snd (Player.update (Game.keys h) (Game.player (Game.hostWrite h g)))
  /\ Game.inputManager g1
     = fst (Player.update (Game.keys h) (Game.player (Game.hostWrite h g)))
  /\ InputManager.interactKey (Game.inputManager g1)
     = InputManager.interactKey (Game.keys h).
Proof.
  repeat split.
  cbn [beforeCheck Game.inputManager Game.with_oozeObstacle Game.with_player
       Game.with_inputManager].
  change (Game.inputManager (Game.hostWrite h g)) with (Game.keys h).
  rewrite update_keys.
  destruct (Player.canMove _); [|reflexivity].
  apply isRunning_keys.
Qed.

(** ** The panel and the player's movement flag *)

Lemma PanelInv_create (useDefineForClassFields : bool) :
  PanelInv (Game.create useDefineForClassFields).
Proof.
  destruct useDefineForClassFields; split.
  all: try (intros [|[|r]] q H; simpl in H; try discriminate;
            injection H as <-; discriminate).
  all: intros [|[|r]] q cb H; simpl in H; try discriminate;
    injection H as <-; discriminate.
Qed.

(** The invariant reads four components of the scene only. *)
Lemma PanelInv_view (g g' : Game.t) :
  Game.questBoards g' = Game.questBoards g ->
  Game.tweens g' = Game.tweens g ->
  OozeObstacle.questBoard (Game.oozeObstacle g')
  = OozeObstacle.questBoard (Game.oozeObstacle g) ->
  Player.canMove (Game.player g') = Player.canMove (Game.player g) ->
  PanelInv g -> PanelInv g'.
Proof.
  intros Hb Ht Hq Hc [I1 I2 I3].
  split; unfold closing; rewrite ?Hb, ?Ht, ?Hq, ?Hc; auto.
Qed.

Lemma showChatBubble_questBoard (o : OozeObstacle.t) :
  OozeObstacle.questBoard (OozeObstacle.showChatBubble o)
  = OozeObstacle.questBoard o.
Proof.
  unfold OozeObstacle.showChatBubble.
  destruct (OozeObstacle.chatBubbleImage o), (OozeObstacle.chatBubbleText o),
    (OozeObstacle.truthy (OozeObstacle.chatBubbleVisible o)); reflexivity.
Qed.

Lemma hideChatBubble_questBoard (o : OozeObstacle.t) :
  OozeObstacle.questBoard (OozeObstacle.hideChatBubble o)
  = OozeObstacle.questBoard o.
Proof.
  unfold OozeObstacle.hideChatBubble.
  destruct (OozeObstacle.chatBubbleImage o), (OozeObstacle.chatBubbleText o),
    (OozeObstacle.truthy (OozeObstacle.chatBubbleVisible o)); reflexivity.
Qed.

Lemma with_questBoard_same (o : OozeObstacle.t) (r : option nat) :
  OozeObstacle.questBoard o = r -> OozeObstacle.with_questBoard r o = o.
Proof.
  destruct o. simpl. intros ->. reflexivity.
Qed.

Lemma onPlayerInteract_effect (o : OozeObstacle.t) (p : Player.t)
  (boards : list OozeObstacle.Board) (tws : list Tweens.Tween) :
  match OozeObstacle.onPlayerInteract o p boards tws with
  | (o', p', boards', tws') =>
      p' = Player.disableMovement p
      /\ OozeObstacle.questBoard o' = Some (boardToOpen o boards)
      /\ o' = OozeObstacle.with_questBoard (Some (boardToOpen o boards))
                (OozeObstacle.hideChatBubble o)
      /\ (forall r q, nth_error boards' r = Some q ->
            r = boardToOpen o boards \/ nth_error boards r = Some q)
  end.
Proof.
  unfold OozeObstacle.onPlayerInteract, OozeObstacle.initializeQuestBoard,
    boardToOpen.
  rewrite hideChatBubble_questBoard.
  destruct (OozeObstacle.questBoard o) as [r0|] eqn:Hq.
  - rewrite hideChatBubble_questBoard, Hq.
    assert (OozeObstacle.questBoard (OozeObstacle.hideChatBubble o) = Some r0)
      as Hq' by (rewrite hideChatBubble_questBoard; exact Hq).
    unfold OozeObstacle.onBoard.
    destruct (nth_error boards r0) as [q0|] eqn:Hn.
    + destruct (QuestBoard.showQuestBoard r0 _ q0 tws) as [q1 tws1].
      split; [reflexivity|]. split; [exact Hq'|].
      split; [symmetry; apply with_questBoard_same; exact Hq'|].
      intros r q H.
      rewrite nth_error_store in H by (eapply nth_error_in_range; eauto).
      destruct (Nat.eqb_spec r r0); auto.
    + split; [reflexivity|]. split; [exact Hq'|].
      split; [symmetry; apply with_questBoard_same; exact Hq'|].
      auto.
  - simpl. unfold OozeObstacle.onBoard.
    rewrite nth_error_snoc, Nat.eqb_refl.
    destruct (QuestBoard.showQuestBoard _ _ _ tws) as [q1 tws1].
    split; [reflexivity|]. split; [reflexivity|]. split; [reflexivity|].
    intros r q H.
    rewrite nth_error_store in H by (rewrite length_app; simpl; lia).
    destruct (Nat.eqb_spec r (List.length boards)); auto.
    rewrite nth_error_snoc in H.
    destruct (Nat.eqb_spec r (List.length boards)); [contradiction|auto].
Qed.

(** [checkObstacleInteractions], field by field. *)
Lemma checkObstacleInteractions_fields (g : Game.t) :
  let near := nearOoze g in
  let pressed :=
    near && InputManager.justDown (InputManager.interactKey (Game.inputManager g)) in
  let g' := Game.checkObstacleInteractions g in
  let toggled := toggleBubble (Game.isPlayerNearOoze g) near (Game.oozeObstacle g) in
  Game.isPlayerNearOoze g' = near
  /\ Game.player g'
     = (if pressed then Player.disableMovement (Game.player g) else Game.player g)
  /\ Game.oozeObstacle g'
     = (if pressed
        then OozeObstacle.with_questBoard
               (Some (boardToOpen toggled (Game.questBoards g)))
               (OozeObstacle.hideChatBubble toggled)
        else toggled).
Proof.
  intros near pressed g' toggled.
  subst g' pressed toggled. unfold Game.checkObstacleInteractions, toggleBubble.
  fold (nearOoze g). fold near.
  set (g1 := if negb (Bool.eqb near (Game.isPlayerNearOoze g)) then _ else g).
  assert (Game.isPlayerNearOoze g1 = near
          /\ Game.player g1 = Game.player g
          /\ Game.inputManager g1 = Game.inputManager g
          /\ Game.questBoards g1 = Game.questBoards g
          /\ Game.oozeObstacle g1
             = (if negb (Bool.eqb near (Game.isPlayerNearOoze g))
                then if near
                     then OozeObstacle.showChatBubble (Game.oozeObstacle g)
                     else OozeObstacle.hideChatBubble (Game.oozeObstacle g)
                else Game.oozeObstacle g)) as (Ht & Hp & Hi & Hb & Ho).
  { subst g1. destruct near, (Game.isPlayerNearOoze g) eqn:Et; simpl; auto. }
  rewrite <- Ho. clearbody g1.
  destruct near; simpl; [|auto].
  unfold InputManager.isInteractPressed, InputManager.JustDown.
  rewrite <- Hi.
  destruct (InputManager.justDown (InputManager.interactKey (Game.inputManager g1)));
    simpl; [|auto].
  unfold Game.onPlayerInteract.
  pose proof (onPlayerInteract_effect
    (Game.oozeObstacle g1) (Game.player g1) (Game.questBoards g1) (Game.tweens g1))
    as E.
  simpl.
  destruct (OozeObstacle.onPlayerInteract _ _ _ _) as [[[o' p'] b'] t'].
  destruct E as (-> & _ & -> & _). simpl. rewrite Hp, Hb. auto.
Qed.

Lemma toggleBubble_questBoard (tracked near : bool) (o : OozeObstacle.t) :
  OozeObstacle.questBoard (toggleBubble tracked near o)
  = OozeObstacle.questBoard o.
Proof.
  unfold toggleBubble. destruct (negb _); [|reflexivity].
  destruct near; [apply showChatBubble_questBoard|apply hideChatBubble_questBoard].
Qed.

(** A frame, field by field: the player after [Player.update], frozen when
    the frame triggers an interaction; the obstacle after the debounced
    toggle, and after [onPlayerInteract] when triggered; the proximity
    boolean. *)
Lemma frame_fields (h : Game.Host) (g : Game.t) :
  let moved :=
    snd (Player.update (Game.keys h) (Game.player (Game.hostWrite h g))) in
  let near :=
    BaseObstacle.isPlayerNearby (Player.getPosition moved)
      (OozeObstacle.base (Game.oozeObstacle g)) in
  let pressed := near && interactDown h in
  let toggled := toggleBubble (Game.isPlayerNearOoze g) near (Game.oozeObstacle g) in
  let g' := Game.step (Game.Frame h) g in
  Game.isPlayerNearOoze g' = near
  /\ Game.player g' = (if pressed then Player.disableMovement moved else moved)
  /\ Game.oozeObstacle g'
     = (if pressed
        then OozeObstacle.with_questBoard
               (Some (boardToOpen toggled (Game.questBoards g)))
               (OozeObstacle.hideChatBubble toggled)
        else toggled).
Proof.
  intros moved near pressed toggled g'.
  subst g'. rewrite step_frame.
  destruct (beforeCheck_fields h g) as (Ho & Htr & Hb & _ & Hp & _ & Hi).
  pose proof (checkObstacleInteractions_fields (beforeCheck h g)) as F.
  cbv zeta in F. unfold nearOoze in F. rewrite Ho, Htr, Hb, Hp, Hi in F.
  exact F.
Qed.

Lemma PanelInv_onPlayerInteract (g : Game.t) :
  PanelInv g -> PanelInv (Game.onPlayerInteract g).
Proof.
  intros [I1 I2 I3]. unfold Game.onPlayerInteract.
  pose proof (onPlayerInteract_effect (Game.oozeObstacle g) (Game.player g)
                (Game.questBoards g) (Game.tweens g)) as H.
  destruct (OozeObstacle.onPlayerInteract _ _ _ _) as [[[o' p'] boards'] tws'].
  destruct H as (Hp & Hq & _ & Hb).
  assert (forall r, OozeObstacle.questBoard (Game.oozeObstacle g) = Some r ->
                    boardToOpen (Game.oozeObstacle g) (Game.questBoards g) = r)
    as Href by (intros r E; unfold boardToOpen; rewrite E; reflexivity).
  split; simpl.
  - intros r q Hn Hv. rewrite Hq. f_equal.
    destruct (Hb r q Hn) as [->|Hold]; [reflexivity|]. eauto.
  - intros r q cb Hn Hc. rewrite Hq. f_equal.
    destruct (Hb r q Hn) as [->|Hold]; [reflexivity|]. eauto.
  - intros. rewrite Hp. reflexivity.
Qed.

Lemma PanelInv_checkObstacleInteractions (g : Game.t) :
  PanelInv g -> PanelInv (Game.checkObstacleInteractions g).
Proof.
  intros I. unfold Game.checkObstacleInteractions.
  set (near := BaseObstacle.isPlayerNearby _ _).
  set (g1 := if negb (Bool.eqb near (Game.isPlayerNearOoze g)) then _ else g).
  assert (PanelInv g1) as I1.
  { subst g1. destruct (negb _); [|exact I].
    destruct near; (eapply PanelInv_view; [| | | |exact I]); simpl;
      auto using showChatBubble_questBoard, hideChatBubble_questBoard. }
  clearbody g1. destruct near; [|exact I1].
  destruct (InputManager.isInteractPressed (Game.inputManager g1)) as [pressed im].
  assert (PanelInv (Game.with_inputManager im g1)) as I2
    by (eapply PanelInv_view; [| | | |exact I1]; reflexivity).
  destruct pressed; [apply PanelInv_onPlayerInteract|]; exact I2.
Qed.

Lemma PanelInv_frame (h : Game.Host) (g : Game.t) :
  PanelInv g -> PanelInv (Game.step (Game.Frame h) g).
Proof.
  intros I. rewrite step_frame.
  apply PanelInv_checkObstacleInteractions.
  destruct (beforeCheck_fields h g) as (Ho & _ & Hb & Ht & Hp & _).
  eapply PanelInv_view; [exact Hb|exact Ht|rewrite Ho; reflexivity| |exact I].
  rewrite Hp, update_canMove. reflexivity.
Qed.

Lemma isFadeOutOf_fadeOut (r : nat) :
  isFadeOutOf r (QuestBoard.fadeOut r) = true.
Proof.
  unfold isFadeOutOf. simpl. rewrite Nat.eqb_refl. reflexivity.
Qed.

Lemma PanelInv_pointerdown (r : nat) (g : Game.t) :
  PanelInv g -> PanelInv (Game.pointerdown r g).
Proof.
  intros [I1 I2 I3]. unfold Game.pointerdown.
  destruct (nth_error (Game.questBoards g) r) as [q|] eqn:Hn;
    [|split; assumption].
  pose proof (nth_error_in_range _ _ _ Hn) as Hlt.
  assert (forall r' q', nth_error (store r q (Game.questBoards g)) r' = Some q' ->
                        nth_error (Game.questBoards g) r' = Some q') as Hsame.
  { intros r' q' H. rewrite nth_error_store in H by exact Hlt.
    destruct (Nat.eqb_spec r' r); [subst r'; congruence | exact H]. }
  unfold QuestBoard.okButton_pointerdown, QuestBoard.hideQuestBoard.
  destruct (QuestBoard.isVisible q) eqn:Hv;
    destruct (QuestBoard.onCloseCallback q) as [[]|] eqn:Hc; simpl.
  - split; simpl; eauto.
    intros r' q' Hn' Hv' Hcl. exfalso.
    assert (r' = r) as ->.
    { pose proof (I1 _ _ (Hsame _ _ Hn') Hv') as E1.
      pose proof (I2 _ _ _ Hn Hc) as E2. congruence. }
    unfold closing in Hcl. simpl in Hcl.
    rewrite existsb_app in Hcl. simpl in Hcl.
    rewrite isFadeOutOf_fadeOut, orb_true_r in Hcl. discriminate.
  - split; simpl; eauto.
    intros r' q' Hn' Hv' Hcl. apply (I3 r' q' (Hsame _ _ Hn') Hv').
    unfold closing in *. simpl in Hcl.
    rewrite existsb_app in Hcl. apply orb_false_iff in Hcl. tauto.
  - split; simpl; eauto.
    intros r' q' Hn' Hv' Hcl. exfalso.
    assert (r' = r) as ->.
    { pose proof (I1 _ _ (Hsame _ _ Hn') Hv') as E1.
      pose proof (I2 _ _ _ Hn Hc) as E2. congruence. }
    apply Hsame in Hn'. congruence.
  - split; simpl; eauto.
Qed.

Lemma tweenComplete_callback (tw : Tweens.Tween) (q : OozeObstacle.Board) :
  QuestBoard.onCloseCallback (QuestBoard.tweenComplete tw q)
  = QuestBoard.onCloseCallback q.
Proof.
  unfold QuestBoard.tweenComplete.
  destruct (Tweens.onComplete tw) as [[]|]; reflexivity.
Qed.

Lemma tweenComplete_isVisible (tw : Tweens.Tween) (q : OozeObstacle.Board) :
  QuestBoard.isVisible (QuestBoard.tweenComplete tw q)
  = match Tweens.onComplete tw with
    | Some Tweens.HideContainer => false
    | None => QuestBoard.isVisible q
    end.
Proof.
  unfold QuestBoard.tweenComplete.
  destruct (Tweens.onComplete tw) as [[]|]; reflexivity.
Qed.

(** An update of the tween manager never opens a board nor changes a stored
    callback, and a board that is still open afterwards has kept every
    fade-out that was running on it. *)
Lemma tweensUpdate_boards (delta : Z) (tws : list Tweens.Tween) :
  forall (boards : list OozeObstacle.Board) (r : nat) (q' : OozeObstacle.Board),
    nth_error (snd (Game.tweensUpdate delta tws boards)) r = Some q' ->
    exists q,
      nth_error boards r = Some q
      /\ QuestBoard.onCloseCallback q' = QuestBoard.onCloseCallback q
      /\ (QuestBoard.isVisible q' = true ->
          QuestBoard.isVisible q = true
          /\ (existsb (isFadeOutOf r) tws = true ->
              existsb (isFadeOutOf r)
                (fst (Game.tweensUpdate delta tws boards)) = true)).
Proof.
  induction tws as [|tw rest IH]; intros boards r q' H; simpl in *.
  - exists q'. auto.
  - destruct (Tweens.duration tw <=? Tweens.elapsed tw + delta)%Z.
    + destruct (IH _ _ _ H) as (q1 & Hn1 & Hc1 & Hv1). clear IH.
      destruct (nth_error boards (Tweens.targets tw)) as [q0|] eqn:Hn0.
      * rewrite nth_error_store in Hn1 by (eapply nth_error_in_range; eauto).
        destruct (Nat.eqb_spec r (Tweens.targets tw)) as [->|Hne].
        -- injection Hn1 as <-. exists q0. split; [exact Hn0|].
           split; [rewrite Hc1; apply tweenComplete_callback|].
           intros Hv. destruct (Hv1 Hv) as [Hv0 Hk].
           rewrite tweenComplete_isVisible in Hv0.
           unfold isFadeOutOf at 1. rewrite Nat.eqb_refl. simpl.
           destruct (Tweens.onComplete tw) as [[]|]; [discriminate|].
           simpl. auto.
        -- exists q1. split; [exact Hn1|]. split; [exact Hc1|].
           intros Hv. destruct (Hv1 Hv) as [Hv0 Hk]. split; [exact Hv0|].
           unfold isFadeOutOf at 1.
           destruct (Nat.eqb_spec (Tweens.targets tw) r); [congruence|].
           simpl. exact Hk.
      * exists q1. split; [exact Hn1|]. split; [exact Hc1|].
        intros Hv. destruct (Hv1 Hv) as [Hv0 Hk]. split; [exact Hv0|].
        unfold isFadeOutOf at 1.
        destruct (Nat.eqb_spec (Tweens.targets tw) r) as [E|]; simpl; auto.
        exfalso. rewrite E in Hn0. congruence.
    + destruct (Game.tweensUpdate delta rest boards) as [rest' boards'] eqn:E.
      simpl in *.
      specialize (IH boards r q'). rewrite E in IH. simpl in IH.
      destruct (IH H) as (q1 & Hn1 & Hc1 & Hv1).
      exists q1. split; [exact Hn1|]. split; [exact Hc1|].
      intros Hv. destruct (Hv1 Hv) as [Hv0 Hk]. split; [exact Hv0|].
      change (isFadeOutOf r (Tweens.with_elapsed (Tweens.elapsed tw + delta) tw))
        with (isFadeOutOf r tw).
      destruct (isFadeOutOf r tw); simpl; auto.
Qed.

Lemma PanelInv_tweensUpdate (delta : Z) (g : Game.t) :
  PanelInv g -> PanelInv (Game.step (Game.TweensUpdate delta) g).
Proof.
  intros [I1 I2 I3]. unfold Game.step.
  pose proof (tweensUpdate_boards delta (Game.tweens g) (Game.questBoards g)) as H.
  destruct (Game.tweensUpdate delta (Game.tweens g) (Game.questBoards g))
    as [tws' boards'].
  simpl in H. split; simpl.
  - intros r q' Hn Hv. destruct (H r q' Hn) as (q & Hq & _ & Hvis).
    apply (I1 r q Hq). apply Hvis, Hv.
  - intros r q' cb Hn Hc. destruct (H r q' Hn) as (q & Hq & Hcb & _).
    apply (I2 r q cb Hq). congruence.
  - intros r q' Hn Hv Hcl. destruct (H r q' Hn) as (q & Hq & _ & Hvis).
    destruct (Hvis Hv) as [Hv0 Hk].
    apply (I3 r q Hq Hv0). unfold closing in *. simpl in Hcl.
    destruct (existsb (isFadeOutOf r) (Game.tweens g)); [|reflexivity].
    rewrite Hk in Hcl by reflexivity. discriminate.
Qed.

Theorem PanelInv_step (e : Game.Event) (g : Game.t) :
  PanelInv g -> PanelInv (Game.step e g).
Proof.
  destruct e as [h|r|delta].
  - apply PanelInv_frame.
  - apply PanelInv_pointerdown.
  - apply PanelInv_tweensUpdate.
Qed.

Theorem PanelInv_run (es : list Game.Event) :
  forall g, PanelInv g -> PanelInv (Game.run es g).
Proof.
  unfold Game.run.
  induction es as [|e es IH]; intros g I; simpl; [exact I|].
  apply IH, PanelInv_step, I.
Qed.

(** C2 (as amended) -- In every state the scene reaches: at most one quest
    board is open; a board that is open, and on which no fade-out has been
    started by the OK button, has the player's movement disabled; and from
    any state, the only event that turns the movement flag from false to true
    is a press of the OK button of a board holding the close-callback. *)
Theorem C2_panel_freezes_player (useDefineForClassFields : bool)
  (es : list Game.Event) :
  let g := Game.run es (Game.create useDefineForClassFields) in
  (forall r1 q1 r2 q2,
      nth_error (Game.questBoards g) r1 = Some q1 ->
      QuestBoard.isVisible q1 = true ->
      nth_error (Game.questBoards g) r2 = Some q2 ->
      QuestBoard.isVisible q2 = true ->
      r1 = r2)
  /\ (forall r q,
      nth_error (Game.questBoards g) r = Some q ->
      QuestBoard.isVisible q = true ->
      closing r g = false ->
      Player.canMove (Game.player g) = false)
  /\ (forall e s,
      Player.canMove (Game.player s) = false ->
      Player.canMove (Game.player (Game.step e s)) = true ->
      exists r q,
        e = Game.PointerDownOk r
        /\ nth_error (Game.questBoards s) r = Some q
        /\ QuestBoard.onCloseCallback q = Some OozeObstacle.ReenableMovement).
Proof.
  intros g.
  destruct (PanelInv_run es _ (PanelInv_create useDefineForClassFields))
    as [I1 _ I3].
  fold g in I1, I3.
  split; [|split].
  - intros r1 q1 r2 q2 H1 V1 H2 V2.
    pose proof (I1 _ _ H1 V1). pose proof (I1 _ _ H2 V2). congruence.
  - exact I3.
  - clear. intros [h|r|delta] s Hoff Hon.
    + exfalso. destruct (frame_fields h s) as (_ & Hp & _).
      rewrite Hp in Hon.
      destruct (_ && _); [discriminate|].
      rewrite update_canMove in Hon. simpl in Hon. congruence.
    + exists r. revert Hon. unfold Game.step, Game.pointerdown.
      destruct (nth_error (Game.questBoards s) r) as [q|]; [|congruence].
      exists q. revert Hon.
      unfold QuestBoard.okButton_pointerdown, QuestBoard.hideQuestBoard.
      destruct (QuestBoard.isVisible q);
        destruct (QuestBoard.onCloseCallback q) as [[]|]; simpl; auto;
        congruence.
    + exfalso. revert Hon. unfold Game.step.
      destruct (Game.tweensUpdate _ _ _). simpl. congruence.
Qed.

Lemma C2_witness :
  let g := Game.run [Game.Frame interactNear] (Game.create true) in
  boardIsVisible 1 g = Some true
  /\ closing 1 g = false
  /\ Player.canMove (Game.player g) = false.
Proof.
  intros g. split; [reflexivity|]. split; [reflexivity|].
  refine (proj1 (proj2 (C2_panel_freezes_player true [Game.Frame interactNear]))
            1%nat _ eq_refl eq_refl eq_refl).
Defined.

(** C2, the claim as written fails, with either value of the compiler
    option: once the player has interacted and the OK button is pressed, the
    board is still open (its visibility flag is true until the fade-out
    completes) while movement is enabled again. *)
Lemma C2_counterexample :
  inBothBuilds (fun created =>
    let g := Game.run [Game.Frame interactNear; Game.PointerDownOk 1] created in
    boardIsVisible 1 g = Some true
    /\ Player.canMove (Game.player g) = true).
Proof. split; split; reflexivity. Qed.

(** ** The scene's boards and tweens *)

Lemma length_store {A : Type} (r : nat) (a : A) (l : list A) :
  (r < List.length l)%nat -> List.length (store r a l) = List.length l.
Proof.
  unfold store. revert l.
  induction r as [|r IH]; intros [|x l] H; simpl in *; try lia.
  rewrite IH; lia.
Qed.

Lemma nth_error_store_same {A : Type} (r : nat) (a : A) (l : list A) :
  nth_error l r = Some a -> forall r', nth_error (store r a l) r' = nth_error l r'.
Proof.
  intros H r'. rewrite nth_error_store by (eapply nth_error_in_range; eauto).
  destruct (Nat.eqb_spec r' r); congruence.
Qed.

Lemma tweensUpdate_length (delta : Z) (tws : list Tweens.Tween) :
  forall boards : list OozeObstacle.Board,
    List.length (snd (Game.tweensUpdate delta tws boards)) = List.length boards.
Proof.
  induction tws as [|tw rest IH]; intros boards; simpl; [reflexivity|].
  destruct (Tweens.duration tw <=? Tweens.elapsed tw + delta)%Z.
  - rewrite IH.
    destruct (nth_error boards (Tweens.targets tw)) eqn:E; [|reflexivity].
    apply length_store. eapply nth_error_in_range; eauto.
  - specialize (IH boards).
    destruct (Game.tweensUpdate delta rest boards). exact IH.
Qed.

(** A fade-out whose time has come closes its board, whatever other tweens
    run beside it. *)
Lemma due_fadeOut_closes (delta : Z) (tws : list Tweens.Tween) :
  forall (boards : list OozeObstacle.Board) (r : nat) (tw : Tweens.Tween),
    In tw tws ->
    isFadeOutOf r tw = true ->
    (Tweens.duration tw <= Tweens.elapsed tw + delta)%Z ->
    (r < List.length boards)%nat ->
    exists q',
      nth_error (snd (Game.tweensUpdate delta tws boards)) r = Some q'
      /\ QuestBoard.isVisible q' = false.
Proof.
  intros boards r tw Hin Hf Hdue Hr.
  assert (exists q', nth_error (snd (Game.tweensUpdate delta tws boards)) r = Some q')
    as [q' Hq'].
  { destruct (nth_error (snd (Game.tweensUpdate delta tws boards)) r) eqn:E;
      [eauto|].
    apply nth_error_None in E. rewrite tweensUpdate_length in E. lia. }
  exists q'. split; [exact Hq'|].
  destruct (QuestBoard.isVisible q') eqn:Hv; [exfalso|reflexivity].
  revert boards Hr Hq'.
  induction tws as [|tw0 rest IH]; intros boards Hr Hq'; [destruct Hin|].
  simpl in Hq'.
  destruct (Z.leb_spec (Tweens.duration tw0) (Tweens.elapsed tw0 + delta)) as [Hd|Hd].
  - destruct Hin as [->|Hin].
    + destruct (tweensUpdate_boards _ _ _ _ _ Hq') as (q1 & Hn1 & _ & Hvis).
      destruct (Hvis Hv) as [Hv1 _].
      unfold isFadeOutOf in Hf. apply andb_true_iff in Hf. destruct Hf as [Ht Ho].
      apply Nat.eqb_eq in Ht. rewrite Ht in Hn1.
      destruct (nth_error boards r) as [q0|] eqn:Hn0.
      * rewrite nth_error_store, Nat.eqb_refl in Hn1 by exact Hr.
        injection Hn1 as <-. rewrite tweenComplete_isVisible in Hv1.
        destruct (Tweens.onComplete tw) as [[]|]; discriminate.
      * apply nth_error_None in Hn0. lia.
    + eapply (IH Hin); [|exact Hq'].
      destruct (nth_error boards (Tweens.targets tw0)) eqn:E0; [|exact Hr].
      rewrite length_store; [exact Hr|eapply nth_error_in_range; eauto].
  - destruct Hin as [->|Hin]; [lia|].
    destruct (Game.tweensUpdate delta rest boards) as [rest' boards'] eqn:E.
    simpl in Hq'. apply (IH Hin boards Hr). rewrite E. exact Hq'.
Qed.

(** The scene after a press of the OK button of an open board that holds a
    callback. *)
Lemma pointerdown_open (r : nat) (q : OozeObstacle.Board) (g : Game.t) :
  nth_error (Game.questBoards g) r = Some q ->
  QuestBoard.isVisible q = true ->
  QuestBoard.onCloseCallback q = Some OozeObstacle.ReenableMovement ->
  Game.questBoards (Game.step (Game.PointerDownOk r) g)
  = store r q (Game.questBoards g)
  /\ Game.tweens (Game.step (Game.PointerDownOk r) g)
     = Game.tweens g ++ [QuestBoard.fadeOut r]
  /\ Player.canMove (Game.player (Game.step (Game.PointerDownOk r) g)) = true
  /\ Game.oozeObstacle (Game.step (Game.PointerDownOk r) g) = Game.oozeObstacle g.
Proof.
  intros Hn Hv Hc. unfold Game.step, Game.pointerdown. rewrite Hn.
  unfold QuestBoard.okButton_pointerdown, QuestBoard.hideQuestBoard.
  rewrite Hv, Hc. simpl. auto.
Qed.

(** The scene after an update of the tween manager. *)
Lemma tweensUpdate_scene (delta : Z) (g : Game.t) :
  Game.player (Game.step (Game.TweensUpdate delta) g) = Game.player g
  /\ Game.questBoards (Game.step (Game.TweensUpdate delta) g)
     = snd (Game.tweensUpdate delta (Game.tweens g) (Game.questBoards g))
  /\ Game.oozeObstacle (Game.step (Game.TweensUpdate delta) g)
     = Game.oozeObstacle g.
Proof.
  unfold Game.step. destruct (Game.tweensUpdate _ _ _). simpl. auto.
Qed.

Lemma store_same {A : Type} (r : nat) (a : A) (l : list A) :
  nth_error l r = Some a -> store r a l = l.
Proof.
  unfold store. revert l.
  induction r as [|r IH]; intros [|x l] H; simpl in *; try discriminate.
  - injection H as ->. reflexivity.
  - f_equal. apply IH, H.
Qed.

(** An update of the tween manager leaves a board flagged visible when no
    fade-out on that board is due. *)
Lemma tweensUpdate_stays_open (delta : Z) (tws : list Tweens.Tween) :
  forall (boards : list OozeObstacle.Board) (r : nat) (q : OozeObstacle.Board),
    nth_error boards r = Some q ->
    QuestBoard.isVisible q = true ->
    (forall tw, In tw tws -> isFadeOutOf r tw = true ->
                (Tweens.elapsed tw + delta < Tweens.duration tw)%Z) ->
    exists q',
      nth_error (snd (Game.tweensUpdate delta tws boards)) r = Some q'
      /\ QuestBoard.isVisible q' = true.
Proof.
  induction tws as [|tw rest IH]; intros boards r q Hn Hv Hnot; simpl;
    [eauto|].
  assert (forall tw', In tw' rest -> isFadeOutOf r tw' = true ->
                      (Tweens.elapsed tw' + delta < Tweens.duration tw')%Z)
    as Hrest by (intros tw' Hin; apply Hnot; right; exact Hin).
  destruct (Z.leb_spec (Tweens.duration tw) (Tweens.elapsed tw + delta))
    as [Hd|Hd].
  - destruct (nth_error boards (Tweens.targets tw)) as [q0|] eqn:Hn0;
      [|apply (IH boards r q); assumption].
    pose proof (nth_error_in_range _ _ _ Hn0) as Hlt.
    destruct (Nat.eq_dec r (Tweens.targets tw)) as [E|Hne].
    + assert (isFadeOutOf r tw = false) as Hf.
      { destruct (isFadeOutOf r tw) eqn:F; [|reflexivity].
        specialize (Hnot tw (or_introl eq_refl) F). lia. }
      subst r. rewrite Hn in Hn0. injection Hn0 as <-.
      apply (IH _ _ (QuestBoard.tweenComplete tw q)); [| |exact Hrest].
      * rewrite nth_error_store, Nat.eqb_refl by exact Hlt. reflexivity.
      * rewrite tweenComplete_isVisible.
        unfold isFadeOutOf in Hf. rewrite Nat.eqb_refl in Hf. simpl in Hf.
        destruct (Tweens.onComplete tw) as [[]|]; [discriminate|exact Hv].
    + apply (IH _ r q); [|exact Hv|exact Hrest].
      rewrite nth_error_store by exact Hlt.
      destruct (Nat.eqb_spec r (Tweens.targets tw)); [contradiction|exact Hn].
  - specialize (IH boards r q Hn Hv Hrest).
    destruct (Game.tweensUpdate delta rest boards) as [rest' boards'].
    exact IH.
Qed.

(** A board whose flag is false and whose container is hidden stays so
    through an update of the tween manager. *)
Lemma tweensUpdate_stays_hidden (delta : Z) (tws : list Tweens.Tween) :
  forall (boards : list OozeObstacle.Board) (r : nat) (q : OozeObstacle.Board),
    nth_error boards r = Some q ->
    QuestBoard.isVisible q = false ->
    QuestBoard.visible (QuestBoard.container q) = false ->
    exists q',
      nth_error (snd (Game.tweensUpdate delta tws boards)) r = Some q'
      /\ QuestBoard.isVisible q' = false
      /\ QuestBoard.visible (QuestBoard.container q') = false.
Proof.
  induction tws as [|tw rest IH]; intros boards r q Hn Hv Hc; simpl; [eauto|].
  destruct (Tweens.duration tw <=? Tweens.elapsed tw + delta)%Z.
  - destruct (nth_error boards (Tweens.targets tw)) as [q0|] eqn:Hn0;
      [|apply (IH boards r q); assumption].
    pose proof (nth_error_in_range _ _ _ Hn0) as Hlt.
    destruct (Nat.eq_dec r (Tweens.targets tw)) as [E|Hne].
    + subst r. rewrite Hn in Hn0. injection Hn0 as <-.
      apply (IH _ _ (QuestBoard.tweenComplete tw q)).
      * rewrite nth_error_store, Nat.eqb_refl by exact Hlt. reflexivity.
      * rewrite tweenComplete_isVisible.
        destruct (Tweens.onComplete tw) as [[]|]; [reflexivity|exact Hv].
      * unfold QuestBoard.tweenComplete.
        destruct (Tweens.onComplete tw) as [[]|]; [reflexivity|exact Hc].
    + apply (IH _ r q); [|exact Hv|exact Hc].
      rewrite nth_error_store by exact Hlt.
      destruct (Nat.eqb_spec r (Tweens.targets tw)); [contradiction|exact Hn].
  - specialize (IH boards r q Hn Hv Hc).
    destruct (Game.tweensUpdate delta rest boards) as [rest' boards'].
    exact IH.
Qed.

(** A fade-out whose time has come leaves its board flagged invisible and
    its container hidden, whatever other tweens run beside it. *)
Lemma due_fadeOut_hides (delta : Z) (tws : list Tweens.Tween) :
  forall (boards : list OozeObstacle.Board) (r : nat) (tw : Tweens.Tween),
    In tw tws ->
    isFadeOutOf r tw = true ->
    (Tweens.duration tw <= Tweens.elapsed tw + delta)%Z ->
    (r < List.length boards)%nat ->
    exists q',
      nth_error (snd (Game.tweensUpdate delta tws boards)) r = Some q'
      /\ QuestBoard.isVisible q' = false
      /\ QuestBoard.visible (QuestBoard.container q') = false.
Proof.
  induction tws as [|tw0 rest IH]; intros boards r tw Hin Hf Hdue Hr;
    [destruct Hin|].
  simpl.
  destruct (Z.leb_spec (Tweens.duration tw0) (Tweens.elapsed tw0 + delta))
    as [Hd|Hd].
  - destruct Hin as [->|Hin].
    + unfold isFadeOutOf in Hf. apply andb_true_iff in Hf.
      destruct Hf as [Ht Ho]. apply Nat.eqb_eq in Ht. rewrite Ht.
      destruct (nth_error boards r) as [q0|] eqn:Hn0;
        [|apply nth_error_None in Hn0; lia].
      apply (tweensUpdate_stays_hidden delta rest _ r
               (QuestBoard.tweenComplete tw q0)).
      * rewrite nth_error_store, Nat.eqb_refl by exact Hr. reflexivity.
      * rewrite tweenComplete_isVisible.
        destruct (Tweens.onComplete tw) as [[]|]; [reflexivity|discriminate].
      * unfold QuestBoard.tweenComplete.
        destruct (Tweens.onComplete tw) as [[]|]; [reflexivity|discriminate].
    + apply (IH _ r tw Hin Hf Hdue).
      destruct (nth_error boards (Tweens.targets tw0)) eqn:E0; [|exact Hr].
      rewrite length_store; [exact Hr|eapply nth_error_in_range; eauto].
  - destruct Hin as [->|Hin]; [lia|].
    specialize (IH boards r tw Hin Hf Hdue Hr).
    destruct (Game.tweensUpdate delta rest boards) as [rest' boards'].
    exact IH.
Qed.

(** The scene's boards, tweens and keys after [checkObstacleInteractions]:
    untouched outside the radius; inside, the interact latch is read and
    cleared, and [onPlayerInteract] runs on the toggled obstacle when the
    latch was set. *)
Lemma checkObstacleInteractions_scene (g : Game.t) :
  let near := nearOoze g in
  let toggled := toggleBubble (Game.isPlayerNearOoze g) near (Game.oozeObstacle g) in
  let g' := Game.checkObstacleInteractions g in
  Game.inputManager g'
  = (if near then snd (InputManager.isInteractPressed (Game.inputManager g))
     else Game.inputManager g)
  /\ (Game.questBoards g', Game.tweens g')
     = (if near && InputManager.justDown (InputManager.interactKey (Game.inputManager g))
        then
          match OozeObstacle.onPlayerInteract toggled (Game.player g)
                  (Game.questBoards g) (Game.tweens g) with
          | (_, _, boards', tws') => (boards', tws')
          end
        else (Game.questBoards g, Game.tweens g)).
Proof.
  intros near toggled g'.
  subst g' toggled. unfold Game.checkObstacleInteractions, toggleBubble.
  fold (nearOoze g). fold near.
  set (g1 := if negb (Bool.eqb near (Game.isPlayerNearOoze g)) then _ else g).
  assert (Game.player g1 = Game.player g
          /\ Game.inputManager g1 = Game.inputManager g
          /\ Game.questBoards g1 = Game.questBoards g
          /\ Game.tweens g1 = Game.tweens g
          /\ Game.oozeObstacle g1
             = (if negb (Bool.eqb near (Game.isPlayerNearOoze g))
                then if near
                     then OozeObstacle.showChatBubble (Game.oozeObstacle g)
                     else OozeObstacle.hideChatBubble (Game.oozeObstacle g)
                else Game.oozeObstacle g)) as (Hp & Hi & Hb & Ht & Ho).
  { subst g1. destruct near, (Game.isPlayerNearOoze g) eqn:Et; simpl; auto 6. }
  rewrite <- Ho, <- Hp, <- Hi, <- Hb, <- Ht. clearbody g1.
  destruct near; simpl; [|auto].
  unfold InputManager.isInteractPressed, InputManager.JustDown.
  destruct (InputManager.justDown (InputManager.interactKey (Game.inputManager g1)));
    simpl; [|auto].
  unfold Game.onPlayerInteract. simpl.
  destruct (OozeObstacle.onPlayerInteract _ _ _ _) as [[[o' p'] b'] t'].
  simpl. auto.
Qed.

(** A frame, on the scene's boards, tweens and keys. *)
Lemma frame_scene (h : Game.Host) (g : Game.t) :
  let queried :=
    fst (Player.update (Game.keys h) (Game.player (Game.hostWrite h g))) in
  let moved :=
    snd (Player.update (Game.keys h) (Game.player (Game.hostWrite h g))) in
  let near :=
    BaseObstacle.isPlayerNearby (Player.getPosition moved)
      (OozeObstacle.base (Game.oozeObstacle g)) in
  let toggled := toggleBubble (Game.isPlayerNearOoze g) near (Game.oozeObstacle g) in
  let g' := Game.step (Game.Frame h) g in
  Game.inputManager g'
  = (if near then snd (InputManager.isInteractPressed queried) else queried)
  /\ (Game.questBoards g', Game.tweens g')
     = (if near && interactDown h
        then
          match OozeObstacle.onPlayerInteract toggled moved
                  (Game.questBoards g) (Game.tweens g) with
          | (_, _, boards', tws') => (boards', tws')
          end
        else (Game.questBoards g, Game.tweens g)).
Proof.
  intros queried moved near toggled g'.
  subst g'. rewrite step_frame.
  destruct (beforeCheck_fields h g) as (Ho & Htr & Hb & Ht & Hp & Hq & Hi).
  pose proof (checkObstacleInteractions_scene (beforeCheck h g)) as F.
  cbv zeta in F. unfold nearOoze in F.
  rewrite Ho, Htr, Hb, Ht, Hp, Hi in F. rewrite Hq in F.
  exact F.
Qed.

Lemma pointerdown_scene (r : nat) (g : Game.t) :
  Game.oozeObstacle (Game.pointerdown r g) = Game.oozeObstacle g
  /\ (forall r', nth_error (Game.questBoards (Game.pointerdown r g)) r'
                 = nth_error (Game.questBoards g) r')
  /\ List.length (Game.questBoards (Game.pointerdown r g))
     = List.length (Game.questBoards g).
Proof.
  unfold Game.pointerdown.
  destruct (nth_error (Game.questBoards g) r) as [q|] eqn:Hn; [|auto].
  unfold QuestBoard.okButton_pointerdown, QuestBoard.hideQuestBoard.
  destruct (QuestBoard.isVisible q);
    destruct (QuestBoard.onCloseCallback q) as [[]|]; simpl;
    (split; [reflexivity|]);
    (split; [apply nth_error_store_same, Hn
            |apply length_store; eapply nth_error_in_range; eauto]).
Qed.

(** [onPlayerInteract] leaves an open board as it is. *)
Lemma onPlayerInteract_keeps_open (o : OozeObstacle.t) (p : Player.t)
  (boards : list OozeObstacle.Board) (tws : list Tweens.Tween)
  (r : nat) (q : OozeObstacle.Board) :
  nth_error boards r = Some q ->
  QuestBoard.isVisible q = true ->
  match OozeObstacle.onPlayerInteract o p boards tws with
  | (_, _, boards', _) => nth_error boards' r = Some q
  end.
Proof.
  intros Hn Hv.
  pose proof (nth_error_in_range _ _ _ Hn) as Hlt.
  unfold OozeObstacle.onPlayerInteract, OozeObstacle.initializeQuestBoard.
  rewrite hideChatBubble_questBoard.
  destruct (OozeObstacle.questBoard o) as [r0|] eqn:Hq.
  - rewrite hideChatBubble_questBoard, Hq.
    unfold OozeObstacle.onBoard.
    destruct (nth_error boards r0) as [q0|] eqn:Hn0; [|exact Hn].
    pose proof (nth_error_in_range _ _ _ Hn0) as Hlt0.
    destruct (QuestBoard.showQuestBoard r0 _ q0 tws) as [q1 tws1] eqn:Es.
    rewrite nth_error_store by exact Hlt0.
    destruct (Nat.eqb_spec r r0) as [->|Hne]; [|exact Hn].
    rewrite Hn in Hn0. injection Hn0 as <-.
    unfold QuestBoard.showQuestBoard in Es. rewrite Hv in Es. simpl in Es.
    injection Es as <- _. reflexivity.
  - simpl. unfold OozeObstacle.onBoard.
    rewrite nth_error_snoc, Nat.eqb_refl.
    destruct (QuestBoard.showQuestBoard _ _ _ tws) as [q1 tws1].
    rewrite nth_error_store by (rewrite length_app; simpl; lia).
    destruct (Nat.eqb_spec r (List.length boards)) as [E|Hne]; [lia|].
    rewrite nth_error_snoc.
    destruct (Nat.eqb_spec r (List.length boards)); [contradiction|exact Hn].
Qed.

(** The flag of an open board is cleared by one thing only: an update of
    the tween manager in which a fade-out registered on that board is due. *)
Lemma open_until_fadeOut (e : Game.Event) (s : Game.t)
  (r : nat) (q : OozeObstacle.Board) :
  nth_error (Game.questBoards s) r = Some q ->
  QuestBoard.isVisible q = true ->
  boardIsVisible r (Game.step e s) = Some true
  \/ exists delta tw,
       e = Game.TweensUpdate delta
       /\ In tw (Game.tweens s)
       /\ isFadeOutOf r tw = true
       /\ (Tweens.duration tw <= Tweens.elapsed tw + delta)%Z.
Proof.
  intros Hn Hv. destruct e as [h|r'|delta].
  - left. destruct (frame_scene h s) as (_ & Hsc).
    set (s' := Game.step (Game.Frame h) s) in *. cbv zeta in Hsc.
    unfold boardIsVisible.
    destruct (_ && _).
    + pose proof (onPlayerInteract_keeps_open
                    (toggleBubble (Game.isPlayerNearOoze s)
                       (BaseObstacle.isPlayerNearby
                          (Player.getPosition
                             (snd (Player.update (Game.keys h)
                                     (Game.player (Game.hostWrite h s)))))
                          (OozeObstacle.base (Game.oozeObstacle s)))
                       (Game.oozeObstacle s))
                    (snd (Player.update (Game.keys h)
                            (Game.player (Game.hostWrite h s))))
                    (Game.questBoards s) (Game.tweens s) r q Hn Hv) as K.
      destruct (OozeObstacle.onPlayerInteract _ _ _ _) as [[[o' p'] b'] t'].
      injection Hsc as Hb _. rewrite Hb, K. simpl. rewrite Hv. reflexivity.
    + injection Hsc as Hb _. rewrite Hb, Hn. simpl. rewrite Hv. reflexivity.
  - left. destruct (pointerdown_scene r' s) as (_ & Hsame & _).
    unfold boardIsVisible, Game.step. rewrite Hsame, Hn. simpl.
    rewrite Hv. reflexivity.
  - destruct (existsb
                (fun tw => isFadeOutOf r tw
                           && (Tweens.duration tw <=? Tweens.elapsed tw + delta)%Z)
                (Game.tweens s)) eqn:Ex.
    + right. apply existsb_exists in Ex. destruct Ex as (tw & Hin & Hboth).
      apply andb_true_iff in Hboth. destruct Hboth as [Hf Hd].
      exists delta, tw. repeat split; auto. apply Z.leb_le, Hd.
    + left.
      destruct (tweensUpdate_stays_open delta (Game.tweens s) (Game.questBoards s)
                  r q Hn Hv) as (q' & Hq' & Hv').
      { intros tw Hin Hf.
        destruct (Z.ltb_spec (Tweens.elapsed tw + delta) (Tweens.duration tw))
          as [Hlt|Hge]; [exact Hlt|exfalso].
        assert (existsb
                  (fun tw => isFadeOutOf r tw
                             && (Tweens.duration tw <=? Tweens.elapsed tw + delta)%Z)
                  (Game.tweens s) = true) as Hex; [|congruence].
        apply existsb_exists. exists tw. split; [exact Hin|].
        rewrite Hf. apply Z.leb_le, Hge. }
      destruct (tweensUpdate_scene delta s) as (_ & Hb & _).
      unfold boardIsVisible. rewrite Hb, Hq'. simpl. rewrite Hv'. reflexivity.
Qed.

(** ** The close action and its callback *)

(** C1 (as amended) -- On an open board that holds a callback, a press of
    the OK button registers the 300 ms fade-out and, before returning,
    invokes the stored callback exactly once: the scene after the press is
    the scene before it with that tween added and the callback run, the
    board itself left as it was, flagged visible.  The completion of a
    fade-out hides the container and clears the flag, invokes no callback
    (an update of the tween manager leaves the player as it was) and keeps
    the stored one.  In the scene, the board is flagged invisible and its
    container hidden once the 300 ms of this fade-out have elapsed; until
    then it stays flagged visible as long as no fade-out registered on it is
    due, and in particular, when none was running before the press, for as
    long as less than 300 ms have elapsed, this fade-out running on.  In any
    state of the scene, the flag of an open board is cleared by one thing
    only: an update of the tween manager in which a fade-out registered on
    that board is due. *)
Theorem C1_close_invokes_callback_at_once (g : Game.t) (r : nat)
  (cb : OozeObstacle.Callback) (q : OozeObstacle.Board) (delta : Z) :
  nth_error (Game.questBoards g) r = Some q ->
  QuestBoard.isVisible q = true ->
  QuestBoard.onCloseCallback q = Some cb ->
  let pressed := Game.step (Game.PointerDownOk r) g in
  let later := Game.step (Game.TweensUpdate delta) pressed in
  let closed := QuestBoard.tweenComplete (QuestBoard.fadeOut r) q in
  QuestBoard.okButton_pointerdown r q (Game.tweens g)
  = ((q, Game.tweens g ++ [QuestBoard.fadeOut r]), [cb])
  /\ Tweens.duration (QuestBoard.fadeOut r) = 300%Z
  /\ Tweens.elapsed (QuestBoard.fadeOut r) = 0%Z
  /\ pressed
     = Game.runCallback cb
         (Game.with_scene (Game.questBoards g)
            (Game.tweens g ++ [QuestBoard.fadeOut r]) g)
  /\ boardIsVisible r pressed = Some true
  /\ (QuestBoard.isVisible closed = false
      /\ QuestBoard.visible (QuestBoard.container closed) = false
      /\ QuestBoard.onCloseCallback closed = Some cb)
  /\ Game.player later = Game.player pressed
  /\ option_map QuestBoard.onCloseCallback (nth_error (Game.questBoards later) r)
     = Some (Some cb)
  /\ ((300 <= delta)%Z ->
      boardIsVisible r later = Some false
      /\ option_map (fun b => QuestBoard.visible (QuestBoard.container b))
           (nth_error (Game.questBoards later) r)
         = Some false)
  /\ ((forall tw, In tw (Game.tweens pressed) -> isFadeOutOf r tw = true ->
                  (Tweens.elapsed tw + delta < Tweens.duration tw)%Z) ->
      boardIsVisible r later = Some true)
  /\ (closing r g = false -> (delta < 300)%Z ->
      boardIsVisible r later = Some true /\ closing r later = true)
  /\ (forall e s q0,
        nth_error (Game.questBoards s) r = Some q0 ->
        QuestBoard.isVisible q0 = true ->
        boardIsVisible r (Game.step e s) = Some true
        \/ exists d tw,
             e = Game.TweensUpdate d
             /\ In tw (Game.tweens s)
             /\ isFadeOutOf r tw = true
             /\ (Tweens.duration tw <= Tweens.elapsed tw + d)%Z).
Proof.
  intros Hn Hv Hc pressed later closed.
  pose proof (nth_error_in_range _ _ _ Hn) as Hlt.
  assert (QuestBoard.okButton_pointerdown r q (Game.tweens g)
          = ((q, Game.tweens g ++ [QuestBoard.fadeOut r]), [cb])) as Hok.
  { unfold QuestBoard.okButton_pointerdown, QuestBoard.hideQuestBoard.
    rewrite Hv, Hc. reflexivity. }
  assert (pressed
          = Game.runCallback cb
              (Game.with_scene (Game.questBoards g)
                 (Game.tweens g ++ [QuestBoard.fadeOut r]) g)) as Hpressed.
  { unfold pressed, Game.step, Game.pointerdown. rewrite Hn, Hok. simpl.
    do 2 f_equal. apply store_same, Hn. }
  assert (Game.questBoards pressed = Game.questBoards g
          /\ Game.tweens pressed = Game.tweens g ++ [QuestBoard.fadeOut r])
    as [Hb Ht] by (rewrite Hpressed; destruct cb; split; reflexivity).
  destruct (tweensUpdate_scene delta pressed) as (Hp' & Hb' & _).
  fold later in Hp', Hb'. rewrite Hb, Ht in Hb'.
  assert (forall q', nth_error (Game.questBoards later) r = Some q' ->
                     QuestBoard.onCloseCallback q' = Some cb) as Hkeep.
  { intros q' Hq'. rewrite Hb' in Hq'.
    destruct (tweensUpdate_boards _ _ _ _ _ Hq') as (q0 & Hn0 & Hc0 & _).
    rewrite Hc0. congruence. }
  assert (exists q', nth_error (Game.questBoards later) r = Some q') as [q1 Hq1].
  { destruct (nth_error (Game.questBoards later) r) eqn:E; [eauto|].
    apply nth_error_None in E. rewrite Hb', tweensUpdate_length in E. lia. }
  assert ((forall tw, In tw (Game.tweens pressed) -> isFadeOutOf r tw = true ->
                      (Tweens.elapsed tw + delta < Tweens.duration tw)%Z) ->
          boardIsVisible r later = Some true) as Hopen.
  { intros Hnot. rewrite Ht in Hnot.
    destruct (tweensUpdate_stays_open delta _ _ r q Hn Hv Hnot) as (q' & Hq' & Hv').
    unfold boardIsVisible. rewrite Hb', Hq'. simpl. rewrite Hv'. reflexivity. }
  split; [exact Hok|]. split; [reflexivity|]. split; [reflexivity|].
  split; [exact Hpressed|].
  split; [unfold boardIsVisible; rewrite Hb, Hn; simpl; rewrite Hv; reflexivity|].
  split; [split; [reflexivity|split; [reflexivity|exact Hc]]|].
  split; [exact Hp'|].
  split; [rewrite Hq1; simpl; rewrite (Hkeep q1 Hq1); reflexivity|].
  split; [|split; [exact Hopen|split; [|intros; eapply open_until_fadeOut; eauto]]].
  - intros Hdelta.
    destruct (due_fadeOut_hides delta (Game.tweens g ++ [QuestBoard.fadeOut r])
                (Game.questBoards g) r (QuestBoard.fadeOut r))
      as (q' & Hq' & Hv' & Hc').
    { apply in_or_app. right. left. reflexivity. }
    { apply isFadeOutOf_fadeOut. }
    { simpl. lia. }
    { exact Hlt. }
    unfold boardIsVisible. rewrite Hb', Hq'. simpl. rewrite Hv', Hc'. auto.
  - intros Hcl Hdelta.
    assert (boardIsVisible r later = Some true) as Hstill.
    { apply Hopen. rewrite Ht. intros tw Hin Hf.
      apply in_app_or in Hin. destruct Hin as [Hin|[<-|[]]]; [|simpl; lia].
      exfalso. unfold closing in Hcl.
      assert (existsb (isFadeOutOf r) (Game.tweens g) = true) as Hex
        by (apply existsb_exists; eauto).
      congruence. }
    split; [exact Hstill|].
    unfold boardIsVisible in Hstill. rewrite Hq1 in Hstill. simpl in Hstill.
    injection Hstill as Hv1. rewrite Hb' in Hq1.
    destruct (tweensUpdate_boards _ _ _ _ _ Hq1) as (q0 & _ & _ & Hrun).
    destruct (Hrun Hv1) as [_ Hk].
    unfold closing, later, Game.step. rewrite Hb, Ht.
    destruct (Game.tweensUpdate delta _ _) as [tws' boards']. simpl in *.
    apply Hk. rewrite existsb_app. simpl.
    rewrite isFadeOutOf_fadeOut. apply orb_true_iff. right. reflexivity.
Qed.

Lemma C1_witness :
  let g := Game.run [Game.Frame interactNear] (Game.create true) in
  let later := Game.run [Game.PointerDownOk 1; Game.TweensUpdate 299] g in
  nth_error (Game.questBoards g) 1 = Some openBoard
  /\ closing 1 g = false
  /\ Player.canMove (Game.player later) = true
  /\ boardIsVisible 1 later = Some true
  /\ closing 1 later = true.
Proof.
  intros g later.
  pose proof (C1_close_invokes_callback_at_once g 1 OozeObstacle.ReenableMovement
                openBoard 299 eq_refl eq_refl eq_refl) as H.
  cbv zeta in H.
  destruct H as (_ & _ & _ & _ & _ & _ & _ & _ & _ & _ & H & _).
  split; [reflexivity|]. split; [reflexivity|]. split; [reflexivity|].
  apply H; [reflexivity|lia].
Defined.

(** C1, the claim as written fails, with either value of the compiler
    option: the handler of the OK button invokes the callback itself, while
    the fade-out it has just registered has run for 0 of its 300 ms and the
    board is still flagged visible -- movement is enabled again at once --
    and a second press before the fade-out completes invokes the callback a
    second time.  After such a second press, made 100 ms after the first,
    the board is flagged invisible 200 ms later, by the first fade-out, when
    the second has run for 200 of its 300 ms. *)
Lemma C1_counterexample :
  let first := QuestBoard.okButton_pointerdown 1 openBoard [] in
  let second :=
    QuestBoard.okButton_pointerdown 1 (fst (fst first)) (snd (fst first)) in
  snd first = [OozeObstacle.ReenableMovement]
  /\ QuestBoard.isVisible (fst (fst first)) = true
  /\ map Tweens.elapsed (snd (fst first)) = [0%Z]
  /\ map Tweens.duration (snd (fst first)) = [300%Z]
  /\ snd second = [OozeObstacle.ReenableMovement]
  /\ inBothBuilds (fun created =>
       let pressed :=
         Game.run [Game.Frame interactNear; Game.PointerDownOk 1] created in
       let again :=
         Game.run [Game.TweensUpdate 100; Game.PointerDownOk 1;
                   Game.TweensUpdate 200] pressed in
       Player.canMove (Game.player pressed) = true
       /\ boardIsVisible 1 pressed = Some true
       /\ map Tweens.elapsed (filter (isFadeOutOf 1) (Game.tweens pressed))
          = [0%Z]
       /\ boardIsVisible 1 again = Some false
       /\ map Tweens.elapsed (filter (isFadeOutOf 1) (Game.tweens again))
          = [200%Z]).
Proof. repeat split. Qed.

(** ** Construction of the quest board *)

(** Once the obstacle references a board, it references it for good. *)
Lemma questBoard_step (e : Game.Event) (g : Game.t) (r : nat) :
  OozeObstacle.questBoard (Game.oozeObstacle g) = Some r ->
  OozeObstacle.questBoard (Game.oozeObstacle (Game.step e g)) = Some r.
Proof.
  intros H. destruct e as [h|r'|delta].
  - destruct (frame_fields h g) as (_ & _ & ->).
    destruct (_ && _).
    + unfold boardToOpen. simpl. rewrite toggleBubble_questBoard, H. reflexivity.
    + rewrite toggleBubble_questBoard. exact H.
  - unfold Game.step, Game.pointerdown.
    destruct (nth_error (Game.questBoards g) r') as [q|]; [|exact H].
    unfold QuestBoard.okButton_pointerdown, QuestBoard.hideQuestBoard.
    destruct (QuestBoard.isVisible q);
      destruct (QuestBoard.onCloseCallback q) as [[]|]; exact H.
  - unfold Game.step. destruct (Game.tweensUpdate _ _ _). exact H.
Qed.

Lemma questBoard_run (es : list Game.Event) :
  forall (g : Game.t) (r : nat),
    OozeObstacle.questBoard (Game.oozeObstacle g) = Some r ->
    OozeObstacle.questBoard (Game.oozeObstacle (Game.run es g)) = Some r.
Proof.
  unfold Game.run.
  induction es as [|e es IH]; intros g r H; simpl; [exact H|].
  apply IH, questBoard_step, H.
Qed.

(** C6, the code at the failing input -- With either value of the compiler
    option, when [create] returns, before any frame and any interaction, the
    scene already holds a quest board: [setupObstacle], run by the base
    constructor, has constructed it through [initializeQuestBoard].  The
    obstacle's field [questBoard] is null all the same, so the first
    interaction constructs a second board, which is the one the obstacle
    keeps from then on. *)
Theorem C6_board_constructed_at_setup (useDefineForClassFields : bool) :
  let created := Game.create useDefineForClassFields in
  Game.questBoards created
  = [QuestBoard.createQuestBoard OozeObstacle.Callback]
  /\ snd (OozeObstacle.setupObstacle
            {| OozeObstacle.base := OozeObstacle.base (Game.oozeObstacle created);
               OozeObstacle.chatBubbleImage := None;
               OozeObstacle.chatBubbleText := None;
               OozeObstacle.chatBubbleVisible := None;
               OozeObstacle.questBoard := None |} [])
     = [QuestBoard.createQuestBoard OozeObstacle.Callback]
  /\ OozeObstacle.questBoard (Game.oozeObstacle created) = None
  /\ List.length
       (Game.questBoards (Game.run [Game.Frame interactNear] created))
     = 2%nat
  /\ OozeObstacle.questBoard
       (Game.oozeObstacle (Game.run [Game.Frame interactNear] created))
     = Some 1%nat
  /\ (forall es,
        OozeObstacle.questBoard
          (Game.oozeObstacle
             (Game.run (Game.Frame interactNear :: es) created))
        = Some 1%nat).
Proof.
  destruct useDefineForClassFields; repeat split;
    intros es; rewrite run_cons; apply questBoard_run; reflexivity.
Qed.

(** ** Proximity and the chat bubble *)


(** The obstacle after a frame's check, computed on its bubble fields:
    whether it holds the two objects, the calls the image has received, and
    the flag. *)
Lemma bubble_after_check (tracked near pressed : bool) (r : option nat)
  (o : OozeObstacle.t) :
  (OozeObstacle.truthy (OozeObstacle.chatBubbleVisible o) = true ->
   holdsBubble o = true /\ tracked = true) ->
  let shown := OozeObstacle.truthy (OozeObstacle.chatBubbleVisible o) in
  let toggled := toggleBubble tracked near o in
  let o' :=
    if near && pressed
    then OozeObstacle.with_questBoard r (OozeObstacle.hideChatBubble toggled)
    else toggled in
  OozeObstacle.base o' = OozeObstacle.base o
  /\ holdsBubble o' = holdsBubble o
  /\ imageCalls o'
     = imageCalls o
       ++ (if holdsBubble o then frameEffects tracked shown near pressed else [])
  /\ OozeObstacle.truthy (OozeObstacle.chatBubbleVisible o')
     = holdsBubble o
       && (((negb tracked && near) || shown)
           && negb ((tracked && negb near) || (near && pressed))).
Proof.
  destruct o as [b [i|] [t|] v qb]; intros Hinv;
    unfold toggleBubble, OozeObstacle.showChatBubble, OozeObstacle.hideChatBubble,
      frameEffects, holdsBubble, imageCalls;
    destruct v as [[|]|], tracked, near, pressed; simpl in *;
    try (destruct (Hinv eq_refl); discriminate);
    repeat split; rewrite ?app_nil_r, <- ?app_assoc; reflexivity.
Qed.

(** [handleMovement] moves nothing: the position after [update] is the
    rounded position before. *)
Lemma update_getPosition (im : InputManager.t) (p : Player.t) :
  Player.getPosition (snd (Player.update im p))
  = (Math.round (Player.x (Player.sprite p)),
     Math.round (Player.y (Player.sprite p))).
Proof.
  unfold Player.update, Player.handleMovement.
  destruct (Player.canMove p); simpl; [|reflexivity].
  destruct (InputManager.isRunning im) as [b im']. simpl.
  destruct (negb _), (Player.touching_down (Player.sprite p)),
    (InputManager.isJumping im'); reflexivity.
Qed.

(** One frame, seen from the bubble. *)
Lemma frame_bubble (h : Game.Host) (g : Game.t) :
  BubbleInv g ->
  let g' := Game.step (Game.Frame h) g in
  BubbleInv g'
  /\ Game.isPlayerNearOoze g' = nearOoze g'
  /\ nearOoze g'
     = BaseObstacle.isPlayerNearby
         (Math.round (Game.body_x h), Math.round (Game.body_y h))
         (OozeObstacle.base (Game.oozeObstacle g))
  /\ bubbleHeld g' = bubbleHeld g
  /\ bubbleShown g'
     = bubbleHeld g
       && (((negb (Game.isPlayerNearOoze g) && nearOoze g') || bubbleShown g)
           && negb ((Game.isPlayerNearOoze g && negb (nearOoze g'))
                    || (nearOoze g' && interactDown h)))
  /\ bubbleCalls g'
     = bubbleCalls g
       ++ (if bubbleHeld g
           then frameEffects (Game.isPlayerNearOoze g) (bubbleShown g)
                  (nearOoze g') (interactDown h)
           else []).
Proof.
  intros Hinv g'.
  subst g'. rewrite step_frame.
  set (g1 := beforeCheck h g).
  destruct (beforeCheck_fields h g) as (Ho & Htr & _ & _ & Hpl & _ & Hk).
  fold g1 in Ho, Htr, Hpl, Hk.
  assert (Player.getPosition (Game.player g1)
          = (Math.round (Game.body_x h), Math.round (Game.body_y h))) as Hpos
    by (rewrite Hpl, update_getPosition; reflexivity).
  destruct (checkObstacleInteractions_fields g1) as (Hn & Hp & Hoz).
  rewrite Htr, Ho, Hk in Hoz. rewrite Hk in Hp.
  fold (interactDown h) in Hoz, Hp.
  set (near := nearOoze g1) in *.
  pose proof (bubble_after_check (Game.isPlayerNearOoze g) near (interactDown h)
    (Some (boardToOpen
             (toggleBubble (Game.isPlayerNearOoze g) near (Game.oozeObstacle g))
             (Game.questBoards g1)))
    (Game.oozeObstacle g) Hinv) as B.
  cbv zeta in B. rewrite <- Hoz in B.
  destruct B as (Hbase & Hheld & Hcalls & Hshown).
  assert (nearOoze (Game.checkObstacleInteractions g1) = near) as Hnear'.
  { unfold nearOoze. rewrite Hbase, Hp.
    subst near. unfold nearOoze. rewrite Ho.
    destruct (_ && _); reflexivity. }
  rewrite Hnear'.
  assert (near = BaseObstacle.isPlayerNearby
                   (Math.round (Game.body_x h), Math.round (Game.body_y h))
                   (OozeObstacle.base (Game.oozeObstacle g))) as Hdef.
  { subst near. unfold nearOoze. rewrite Hpos, Ho. reflexivity. }
  split; [|split; [exact Hn|split; [exact Hdef|split; [exact Hheld|split]]]].
  - unfold BubbleInv, bubbleShown, bubbleHeld in *. rewrite Hshown, Hheld, Hn.
    destruct (holdsBubble (Game.oozeObstacle g)); [|discriminate].
    destruct (Game.isPlayerNearOoze g), near, (interactDown h); simpl; auto;
      try discriminate;
      destruct (OozeObstacle.truthy
                  (OozeObstacle.chatBubbleVisible (Game.oozeObstacle g)));
      simpl; try discriminate; intros _; destruct Hinv; auto; discriminate.
  - unfold bubbleShown. exact Hshown.
  - unfold bubbleCalls. exact Hcalls.
Qed.

(** The events other than a frame leave the obstacle and the proximity
    boolean alone. *)
Lemma step_not_frame (e : Game.Event) (g : Game.t) :
  (forall h, e <> Game.Frame h) ->
  Game.oozeObstacle (Game.step e g) = Game.oozeObstacle g
  /\ Game.isPlayerNearOoze (Game.step e g) = Game.isPlayerNearOoze g.
Proof.
  intros Hnf. destruct e as [h|r|delta]; [destruct (Hnf h eq_refl)| |].
  - unfold Game.step, Game.pointerdown.
    destruct (nth_error (Game.questBoards g) r) as [q|]; [|auto].
    unfold QuestBoard.okButton_pointerdown, QuestBoard.hideQuestBoard.
    destruct (QuestBoard.isVisible q);
      destruct (QuestBoard.onCloseCallback q) as [[]|]; auto.
  - unfold Game.step. destruct (Game.tweensUpdate _ _ _). auto.
Qed.

Lemma BubbleInv_create (useDefineForClassFields : bool) :
  BubbleInv (Game.create useDefineForClassFields).
Proof. destruct useDefineForClassFields; intros H; discriminate. Qed.

Lemma BubbleInv_step (e : Game.Event) (g : Game.t) :
  BubbleInv g -> BubbleInv (Game.step e g).
Proof.
  intros I. destruct e as [h|r|delta].
  - apply (frame_bubble h g I).
  - destruct (step_not_frame (Game.PointerDownOk r) g) as [Ho Ht];
      [discriminate|].
    unfold BubbleInv, bubbleShown, bubbleHeld in *. rewrite Ho, Ht. exact I.
  - destruct (step_not_frame (Game.TweensUpdate delta) g) as [Ho Ht];
      [discriminate|].
    unfold BubbleInv, bubbleShown, bubbleHeld in *. rewrite Ho, Ht. exact I.
Qed.

Lemma BubbleInv_run (es : list Game.Event) :
  forall g, BubbleInv g -> BubbleInv (Game.run es g).
Proof.
  unfold Game.run.
  induction es as [|e es IH]; intros g I; simpl; [exact I|].
  apply IH, BubbleInv_step, I.
Qed.

(** Whether the obstacle holds the bubble's objects is settled by its
    construction: no event gives or takes them. *)
Lemma holdsBubble_show (o : OozeObstacle.t) :
  holdsBubble (OozeObstacle.showChatBubble o) = holdsBubble o.
Proof.
  destruct o as [b [i|] [t|] [[|]|] qb]; reflexivity.
Qed.

Lemma holdsBubble_hide (o : OozeObstacle.t) :
  holdsBubble (OozeObstacle.hideChatBubble o) = holdsBubble o.
Proof.
  destruct o as [b [i|] [t|] [[|]|] qb]; reflexivity.
Qed.

Lemma holdsBubble_with_questBoard (r : option nat) (o : OozeObstacle.t) :
  holdsBubble (OozeObstacle.with_questBoard r o) = holdsBubble o.
Proof. reflexivity. Qed.

Lemma holdsBubble_toggle (tracked near : bool) (o : OozeObstacle.t) :
  holdsBubble (toggleBubble tracked near o) = holdsBubble o.
Proof.
  unfold toggleBubble. destruct (negb _); [|reflexivity].
  destruct near; [apply holdsBubble_show|apply holdsBubble_hide].
Qed.

Lemma bubbleHeld_step (e : Game.Event) (g : Game.t) :
  bubbleHeld (Game.step e g) = bubbleHeld g.
Proof.
  unfold bubbleHeld. destruct e as [h|r|delta].
  - destruct (frame_fields h g) as (_ & _ & ->).
    destruct (_ && _); [|apply holdsBubble_toggle].
    rewrite holdsBubble_with_questBoard, holdsBubble_hide.
    apply holdsBubble_toggle.
  - now destruct (step_not_frame (Game.PointerDownOk r) g) as [-> _].
  - now destruct (step_not_frame (Game.TweensUpdate delta) g) as [-> _].
Qed.

Lemma bubbleHeld_run (useDefineForClassFields : bool) (es : list Game.Event) :
  bubbleHeld (Game.run es (Game.create useDefineForClassFields))
  = negb useDefineForClassFields.
Proof.
  assert (forall g, bubbleHeld (Game.run es g) = bubbleHeld g) as H.
  { unfold Game.run. induction es as [|e es IH]; intros g; simpl; [reflexivity|].
    rewrite IH. apply bubbleHeld_step. }
  rewrite H. destruct useDefineForClassFields; reflexivity.
Qed.

(** An obstacle that holds neither object is left as it is by the bubble's
    methods, and stays so in every state the scene reaches when the compiler
    option is set. *)
Lemma lostBubble_methods (o : OozeObstacle.t) :
  lostBubble o ->
  OozeObstacle.showChatBubble o = o
  /\ OozeObstacle.hideChatBubble o = o
  /\ (forall tracked near, toggleBubble tracked near o = o).
Proof.
  intros (Hi & Ht & Hv).
  assert (OozeObstacle.showChatBubble o = o /\ OozeObstacle.hideChatBubble o = o)
    as [Hs Hh]
    by (unfold OozeObstacle.showChatBubble, OozeObstacle.hideChatBubble;
        rewrite Hi; auto).
  split; [exact Hs|]. split; [exact Hh|].
  intros tracked near. unfold toggleBubble.
  destruct (negb _), near; auto.
Qed.

Lemma lostBubble_step (e : Game.Event) (g : Game.t) :
  lostBubble (Game.oozeObstacle g) -> lostBubble (Game.oozeObstacle (Game.step e g)).
Proof.
  intros L. destruct e as [h|r|delta].
  - destruct (frame_fields h g) as (_ & _ & ->).
    destruct (lostBubble_methods _ L) as (_ & Hh & Htog).
    rewrite Htog.
    destruct (_ && _); [rewrite Hh|]; exact L.
  - now destruct (step_not_frame (Game.PointerDownOk r) g) as [-> _].
  - now destruct (step_not_frame (Game.TweensUpdate delta) g) as [-> _].
Qed.

Lemma lostBubble_run (es : list Game.Event) :
  lostBubble (Game.oozeObstacle (Game.run es (Game.create true))).
Proof.
  assert (lostBubble (Game.oozeObstacle (Game.create true))) as L0
    by (repeat split).
  revert L0. generalize (Game.create true). unfold Game.run.
  induction es as [|e es IH]; intros g0 L0; simpl; [exact L0|].
  apply IH, lostBubble_step, L0.
Qed.

(** The obstacle never moves and its radius never changes. *)
Lemma base_step (e : Game.Event) (g : Game.t) :
  OozeObstacle.base (Game.oozeObstacle (Game.step e g))
  = OozeObstacle.base (Game.oozeObstacle g).
Proof.
  destruct e as [h|r|delta].
  - destruct (frame_fields h g) as (_ & _ & ->).
    unfold toggleBubble, OozeObstacle.showChatBubble, OozeObstacle.hideChatBubble.
    destruct (Game.oozeObstacle g) as [b [i|] [t|] [[|]|] qb]; simpl;
      destruct (negb _), (BaseObstacle.isPlayerNearby _ _), (interactDown h);
      reflexivity.
  - now destruct (step_not_frame (Game.PointerDownOk r) g) as [-> _].
  - now destruct (step_not_frame (Game.TweensUpdate delta) g) as [-> _].
Qed.







(** What the obstacle holds of the bubble is in step, in every state the
    scene reaches. *)
Lemma last_snoc {A : Type} (l : list A) (a d : A) : List.last (l ++ [a]) d = a.
Proof.
  induction l as [|x l IH]; [reflexivity|].
  simpl. destruct (l ++ [a]) eqn:E; [destruct l; discriminate|exact IH].
Qed.

Lemma BubbleSync_show (o : OozeObstacle.t) :
  BubbleSync o -> BubbleSync (OozeObstacle.showChatBubble o).
Proof.
  unfold BubbleSync, OozeObstacle.showChatBubble. intros S.
  destruct (OozeObstacle.chatBubbleImage o) as [img|] eqn:Hi;
    [|intros ? ? E; rewrite Hi in E; discriminate].
  destruct (OozeObstacle.chatBubbleText o) as [txt|] eqn:Ht;
    [|intros ? ? _ E; rewrite Ht in E; discriminate].
  destruct (S img txt eq_refl eq_refl) as (Hc & Hv & Hl & Hf).
  destruct (OozeObstacle.truthy (OozeObstacle.chatBubbleVisible o)) eqn:E; simpl.
  - intros img' txt' E1 E2. rewrite Hi in E1. rewrite Ht in E2.
    injection E1 as <-. injection E2 as <-. rewrite E. auto.
  - intros img' txt' E1 E2. injection E1 as <-. injection E2 as <-.
    simpl. rewrite Hc, last_snoc. auto.
Qed.

Lemma BubbleSync_hide (o : OozeObstacle.t) :
  BubbleSync o -> BubbleSync (OozeObstacle.hideChatBubble o).
Proof.
  unfold BubbleSync, OozeObstacle.hideChatBubble. intros S.
  destruct (OozeObstacle.chatBubbleImage o) as [img|] eqn:Hi;
    [|intros ? ? E; rewrite Hi in E; discriminate].
  destruct (OozeObstacle.chatBubbleText o) as [txt|] eqn:Ht;
    [|intros ? ? _ E; rewrite Ht in E; discriminate].
  destruct (S img txt eq_refl eq_refl) as (Hc & Hv & Hl & Hf).
  destruct (OozeObstacle.truthy (OozeObstacle.chatBubbleVisible o)) eqn:E; simpl.
  - intros img' txt' E1 E2. injection E1 as <-. injection E2 as <-.
    simpl. rewrite Hc, last_snoc. auto.
  - intros img' txt' E1 E2. rewrite Hi in E1. rewrite Ht in E2.
    injection E1 as <-. injection E2 as <-. rewrite E. auto.
Qed.

Lemma BubbleSync_step (e : Game.Event) (g : Game.t) :
  BubbleSync (Game.oozeObstacle g) ->
  BubbleSync (Game.oozeObstacle (Game.step e g)).
Proof.
  intros S. destruct e as [h|r|delta].
  - destruct (frame_fields h g) as (_ & _ & ->).
    assert (forall tr nr, BubbleSync (toggleBubble tr nr (Game.oozeObstacle g)))
      as Htog.
    { intros tr nr. unfold toggleBubble. destruct (negb _); [|exact S].
      destruct nr; [apply BubbleSync_show|apply BubbleSync_hide]; exact S. }
    destruct (_ && _); [|apply Htog].
    intros img txt E1 E2.
    exact (BubbleSync_hide _ (Htog _ _) img txt E1 E2).
  - now destruct (step_not_frame (Game.PointerDownOk r) g) as [-> _].
  - now destruct (step_not_frame (Game.TweensUpdate delta) g) as [-> _].
Qed.

Lemma BubbleSync_run (useDefineForClassFields : bool) (es : list Game.Event) :
  BubbleSync
    (Game.oozeObstacle (Game.run es (Game.create useDefineForClassFields))).
Proof.
  assert (BubbleSync (Game.oozeObstacle (Game.create useDefineForClassFields)))
    as S0.
  { destruct useDefineForClassFields; intros img txt E1 E2;
      [discriminate|].
    injection E1 as <-. injection E2 as <-.
    repeat split; try reflexivity. left. reflexivity. }
  revert S0. generalize (Game.create useDefineForClassFields). unfold Game.run.
  induction es as [|e es IH]; intros g0 S0; simpl; [exact S0|].
  apply IH, BubbleSync_step, S0.
Qed.






(* ================================================================== *)
(** * Further properties of the game systems *)

(** ** Player: jumping, facing and animation *)

(** X1 -- A frame of a player who can move, stands on the ground and has a
    jump key held starts a jump: the vertical velocity becomes the jump
    velocity, the jump animation is played, exactly one dust sprite is added,
    at the player's position of before the rounding lowered by the dust
    offset, and the horizontal velocity is still taken from the input. *)
Theorem X1_jump_from_ground (im : InputManager.t) (p : Player.t) :
  Player.canMove p = true ->
  Player.touching_down (Player.sprite p) = true ->
  InputManager.isJumping im = true ->
  let p' := snd (Player.update im p) in
  Player.velocityY (Player.sprite p') = PLAYER_CONFIG.JUMP_VELOCITY
  /\ Player.currentAnim (Player.sprite p') = Some "jump"%string
  /\ Player.dustSprites p'
     = {| Player.dust_x := Player.x (Player.sprite p);
          Player.dust_y :=
            Player.y (Player.sprite p) + UI_CONFIG.JUMP_DUST.Y_OFFSET |}
       :: Player.dustSprites p
  /\ Player.velocityX (Player.sprite p') = steering im.
Proof.
  intros Hc Hg Hj p'. subst p'.
  pose proof (isRunning_keys im) as K. cbv zeta in K.
  destruct K as (_ & _ & _ & _ & _ & _ & _ & _ & Hj' & _).
  split; [|split; [|split; [|apply update_enabled_velocityX, Hc]]];
    unfold Player.update, Player.handleMovement;
    rewrite Hc, Hg; simpl;
    destruct (InputManager.isRunning im) as [b im']; simpl in *;
    rewrite Hj', Hj; simpl;
    destruct (negb (InputManager.getHorizontalDirection im =? 0)); reflexivity.
Qed.

Lemma X1_witness :
  Player.velocityY
    (Player.sprite (snd (Player.update jumpHeld groundedEnabled)))
  = PLAYER_CONFIG.JUMP_VELOCITY
  /\ List.length
       (Player.dustSprites (snd (Player.update jumpHeld groundedEnabled)))
     = 1%nat.
Proof.
  pose proof (X1_jump_from_ground jumpHeld groundedEnabled
                eq_refl eq_refl eq_refl) as H.
  cbv zeta in H. destruct H as (Hv & _ & Hd & _).
  split; [exact Hv|]. rewrite Hd. reflexivity.
Defined.

(** X2 -- A frame starts no jump unless the player can move, touches the
    ground and has a jump key held: otherwise [update] leaves the vertical
    velocity and the dust sprites as they were.  In the air the animation is
    left as it was too, whatever the input. *)
Theorem X2_no_jump_otherwise (im : InputManager.t) (p : Player.t) :
  let p' := snd (Player.update im p) in
  (Player.canMove p && Player.touching_down (Player.sprite p)
   && InputManager.isJumping im = false ->
   Player.velocityY (Player.sprite p') = Player.velocityY (Player.sprite p)
   /\ Player.dustSprites p' = Player.dustSprites p)
  /\ (Player.touching_down (Player.sprite p) = false ->
      Player.currentAnim (Player.sprite p')
      = Player.currentAnim (Player.sprite p)).
Proof.
  intros p'. subst p'.
  pose proof (isRunning_keys im) as K. cbv zeta in K.
  destruct K as (_ & _ & _ & _ & _ & _ & _ & _ & Hj' & _).
  unfold Player.update, Player.handleMovement.
  destruct (Player.canMove p); simpl; [|split; auto].
  destruct (InputManager.isRunning im) as [b im']; simpl in *. rewrite Hj'.
  destruct (Player.touching_down (Player.sprite p)),
    (InputManager.isJumping im),
    (negb (InputManager.getHorizontalDirection im =? 0));
    simpl; split; intros; try discriminate; auto.
Qed.

Lemma X2_witness :
  Player.velocityY (Player.sprite (snd (Player.update jumpHeld airborne))) = 120
  /\ Player.dustSprites (snd (Player.update jumpHeld airborne)) = []
  /\ Player.currentAnim (Player.sprite (snd (Player.update jumpHeld airborne)))
     = Some "run"%string.
Proof.
  pose proof (X2_no_jump_otherwise jumpHeld airborne) as H.
  cbv zeta in H. destruct H as [H1 H2].
  destruct (H1 eq_refl) as [Hv Hd].
  split; [exact Hv|]. split; [exact Hd|]. exact (H2 eq_refl).
Defined.

(** X3 -- For a player who can move, a frame turns the sprite to the left
    when left is held (alone or with right), to the right when right alone
    is held, and leaves its facing when no direction is held; on the ground,
    without a jump, it plays the run animation when a direction is held and
    the idle animation otherwise. *)
Theorem X3_facing_and_animation (im : InputManager.t) (p : Player.t) :
  Player.canMove p = true ->
  let p' := snd (Player.update im p) in
  Player.flipX (Player.sprite p')
  = (if InputManager.isMovingLeft im then true
     else if InputManager.isMovingRight im then false
     else Player.flipX (Player.sprite p))
  /\ (Player.touching_down (Player.sprite p) = true ->
      InputManager.isJumping im = false ->
      Player.currentAnim (Player.sprite p')
      = Some (if InputManager.isMovingHorizontally im then "run" else "idle")%string).
Proof.
  intros Hc p'. subst p'.
  pose proof (isRunning_keys im) as K. cbv zeta in K.
  destruct K as (_ & _ & _ & _ & _ & _ & _ & _ & Hj' & _).
  unfold Player.update, Player.handleMovement,
    InputManager.getHorizontalDirection, InputManager.isMovingHorizontally.
  rewrite Hc. simpl.
  destruct (InputManager.isRunning im) as [b im']; simpl in *. rewrite Hj'.
  destruct (InputManager.isMovingLeft im), (InputManager.isMovingRight im),
    (Player.touching_down (Player.sprite p)), (InputManager.isJumping im);
    simpl; split; intros; try discriminate; reflexivity.
Qed.

Lemma X3_witness :
  Player.flipX (Player.sprite (snd (Player.update bothHeld groundedEnabled)))
  = true
  /\ Player.currentAnim
       (Player.sprite (snd (Player.update bothHeld groundedEnabled)))
     = Some "run"%string.
Proof.
  pose proof (X3_facing_and_animation bothHeld groundedEnabled eq_refl) as H.
  cbv zeta in H. destruct H as [Hf Ha].
  split; [exact Hf|]. exact (Ha eq_refl eq_refl).
Defined.

(** ** Input Manager: horizontal movement and the interact latch *)

(** X4 -- [isMovingHorizontally] holds exactly when the direction query is
    not zero. *)
Theorem X4_moving_iff_direction (im : InputManager.t) :
  InputManager.isMovingHorizontally im
  = negb (InputManager.getHorizontalDirection im =? 0).
Proof.
  unfold InputManager.isMovingHorizontally, InputManager.getHorizontalDirection.
  destruct (InputManager.isMovingLeft im), (InputManager.isMovingRight im);
    reflexivity.
Qed.

(** X5 -- The interact query is edge-triggered and consumed once: it answers
    the key's latch and clears it, so that a second query without a new
    key press answers false; the key's held state and the other keys are
    left as they were. *)
Theorem X5_interact_consumed_once (im : InputManager.t) :
  let first := InputManager.isInteractPressed im in
  let second := InputManager.isInteractPressed (snd first) in
  fst first = InputManager.justDown (InputManager.interactKey im)
  /\ fst second = false
  /\ snd second = snd first
  /\ InputManager.isDown (InputManager.interactKey (snd first))
     = InputManager.isDown (InputManager.interactKey im)
  /\ InputManager.getHorizontalDirection (snd first)
     = InputManager.getHorizontalDirection im
  /\ InputManager.isJumping (snd first) = InputManager.isJumping im
  /\ fst (InputManager.isRunning (snd first)) = fst (InputManager.isRunning im).
Proof.
  unfold InputManager.isInteractPressed, InputManager.JustDown.
  destruct im as [l r u s [sd sj st] [d j t]]. simpl.
  destruct j, sd, st; simpl; repeat split.
Qed.

(** ** Quest Board: the registered callback *)

(** X6 -- Opening a closed board registers the callback given to that call
    and forgets the one stored before: a press of the OK button then invokes
    exactly the callback of the latest opening, and nothing when the board
    was opened without a callback. *)
Theorem X6_latest_registration_fires (Callback : Type) (self : nat)
  (onClose : option Callback) (q : QuestBoard.t Callback)
  (tweens : list Tweens.Tween) :
  QuestBoard.isVisible q = false ->
  let opened := QuestBoard.showQuestBoard self onClose q tweens in
  QuestBoard.onCloseCallback (fst opened) = onClose
  /\ snd (QuestBoard.okButton_pointerdown self (fst opened) (snd opened))
     = match onClose with Some cb => [cb] | None => [] end.
Proof.
  intros Hv opened. subst opened.
  unfold QuestBoard.okButton_pointerdown, QuestBoard.hideQuestBoard,
    QuestBoard.showQuestBoard.
  rewrite Hv. simpl. destruct onClose; split; reflexivity.
Qed.

Lemma X6_witness :
  QuestBoard.isVisible closedWithCallback = false
  /\ snd (QuestBoard.okButton_pointerdown 0
            (fst (QuestBoard.showQuestBoard 0 (Some false) closedWithCallback []))
            (snd (QuestBoard.showQuestBoard 0 (Some false) closedWithCallback [])))
     = [false]
  /\ snd (QuestBoard.okButton_pointerdown 0
            (fst (QuestBoard.showQuestBoard 0 None closedWithCallback []))
            (snd (QuestBoard.showQuestBoard 0 None closedWithCallback [])))
     = [].
Proof.
  split; [reflexivity|]. split.
  - exact (proj2 (X6_latest_registration_fires bool 0 (Some false)
                    closedWithCallback [] eq_refl)).
  - exact (proj2 (X6_latest_registration_fires bool 0 None
                    closedWithCallback [] eq_refl)).
Defined.

(** ** The scene: boards, references and tweens *)

(** The boards and tweens after [onPlayerInteract]: the board the obstacle
    references, constructed on the spot when it references none, is open and
    holds the callback that re-enables movement; no other board changes; a
    board that was open already is left as it was, and no tween is added. *)
Lemma onPlayerInteract_board (o : OozeObstacle.t) (p : Player.t)
  (boards : list OozeObstacle.Board) (tws : list Tweens.Tween) :
  (forall r0, OozeObstacle.questBoard o = Some r0 -> (r0 < List.length boards)%nat) ->
  match OozeObstacle.onPlayerInteract o p boards tws with
  | (o', p', boards', tws') =>
      let r := boardToOpen o boards in
      List.length boards'
      = (match OozeObstacle.questBoard o with
         | Some _ => List.length boards
         | None => S (List.length boards)
         end)
      /\ (exists q',
            nth_error boards' r = Some q'
            /\ QuestBoard.isVisible q' = true
            /\ (QuestBoard.onCloseCallback q' = Some OozeObstacle.ReenableMovement
                \/ nth_error boards r = Some q'))
      /\ (forall r', r' <> r -> nth_error boards' r' = nth_error boards r')
      /\ (forall q, nth_error boards r = Some q ->
                    QuestBoard.isVisible q = true ->
                    nth_error boards' r = Some q /\ tws' = tws)
  end.
Proof.
  intros Href.
  unfold OozeObstacle.onPlayerInteract, OozeObstacle.initializeQuestBoard,
    boardToOpen.
  rewrite hideChatBubble_questBoard.
  destruct (OozeObstacle.questBoard o) as [r0|] eqn:Hq.
  - rewrite hideChatBubble_questBoard, Hq.
    specialize (Href r0 eq_refl).
    unfold OozeObstacle.onBoard.
    destruct (nth_error boards r0) as [q0|] eqn:Hn;
      [|apply nth_error_None in Hn; lia].
    unfold QuestBoard.showQuestBoard.
    destruct (QuestBoard.isVisible q0) eqn:Hv; simpl.
    + split; [apply length_store, Href|].
      split; [exists q0; rewrite nth_error_store_same by exact Hn; auto|].
      split; [intros; apply nth_error_store_same, Hn|].
      intros q E _. injection E as <-.
      rewrite nth_error_store_same by exact Hn. auto.
    + split; [apply length_store, Href|].
      split.
      { eexists. rewrite nth_error_store, Nat.eqb_refl by exact Href.
        split; [reflexivity|]. simpl. auto. }
      split.
      { intros r' Hne. rewrite nth_error_store by exact Href.
        destruct (Nat.eqb_spec r' r0); [contradiction|reflexivity]. }
      intros q E Hvq. congruence.
  - simpl. unfold OozeObstacle.onBoard.
    rewrite nth_error_snoc, Nat.eqb_refl. simpl.
    assert (List.length boards
            < List.length (boards ++ [QuestBoard.createQuestBoard OozeObstacle.Callback]))%nat
      as Hlt by (rewrite length_app; simpl; lia).
    split; [rewrite length_store by exact Hlt; rewrite length_app; simpl; lia|].
    split.
    { eexists. rewrite nth_error_store, Nat.eqb_refl by exact Hlt.
      split; [reflexivity|]. simpl. auto. }
    split.
    { intros r' Hne. rewrite nth_error_store by exact Hlt.
      destruct (Nat.eqb_spec r' (List.length boards)); [contradiction|].
      rewrite nth_error_snoc.
      destruct (Nat.eqb_spec r' (List.length boards)); [contradiction|reflexivity]. }
    intros q E. apply nth_error_in_range in E. lia.
Qed.

(** The proximity predicate after a frame is the predicate at the rounded
    position the engine has given to the player's body. *)
Lemma nearOoze_frame (h : Game.Host) (g : Game.t) :
  nearOoze (Game.step (Game.Frame h) g)
  = BaseObstacle.isPlayerNearby
      (Math.round (Game.body_x h), Math.round (Game.body_y h))
      (OozeObstacle.base (Game.oozeObstacle g)).
Proof.
  unfold nearOoze. rewrite base_step.
  destruct (frame_fields h g) as (_ & -> & _).
  assert (forall p, Player.getPosition (Player.disableMovement p)
                    = Player.getPosition p) as Hd by reflexivity.
  destruct (_ && _); rewrite ?Hd, update_getPosition; reflexivity.
Qed.

Lemma SceneInv_create (useDefineForClassFields : bool) :
  SceneInv (Game.create useDefineForClassFields).
Proof.
  destruct useDefineForClassFields;
    (split; [left; split; reflexivity|]);
    intros [|[|r]] q H; simpl in H; try discriminate;
    injection H as <-; discriminate.
Qed.

Lemma SceneInv_frame (h : Game.Host) (g : Game.t) :
  SceneInv g -> SceneInv (Game.step (Game.Frame h) g).
Proof.
  intros [Hcount Hcb].
  destruct (frame_fields h g) as (_ & _ & Ho).
  destruct (frame_scene h g) as (_ & Hs).
  cbv zeta in Ho, Hs.
  set (g' := Game.step (Game.Frame h) g) in *.
  set (moved := snd (Player.update _ _)) in *.
  set (near := BaseObstacle.isPlayerNearby _ _) in *.
  set (toggled := toggleBubble _ near _) in *.
  assert (OozeObstacle.questBoard toggled
          = OozeObstacle.questBoard (Game.oozeObstacle g)) as Htq
    by apply toggleBubble_questBoard.
  destruct (near && interactDown h).
  - pose proof (onPlayerInteract_board toggled moved
                  (Game.questBoards g) (Game.tweens g)) as B.
    destruct (OozeObstacle.onPlayerInteract _ _ _ _) as [[[o' p'] b'] t'].
    injection Hs as Hb Ht.
    assert (forall r0, OozeObstacle.questBoard toggled = Some r0 ->
                       (r0 < List.length (Game.questBoards g))%nat) as Href.
    { intros r0 E. rewrite Htq in E.
      destruct Hcount as [[E1 _]|[E1 E2]]; [congruence|].
      rewrite E2. injection (eq_trans (eq_sym E) E1) as ->. lia. }
    destruct (B Href) as (Hlen & (q1 & Hn1 & Hv1 & Hc1) & Hother & _).
    split.
    + right. rewrite Ho, Hb, Hlen. unfold boardToOpen. rewrite Htq. simpl.
      destruct Hcount as [[-> ->]|[-> ->]]; auto.
    + intros r q Hn Hv. rewrite Hb in Hn.
      destruct (Nat.eq_dec r (boardToOpen toggled (Game.questBoards g)))
        as [->|Hne].
      * rewrite Hn1 in Hn. injection Hn as <-.
        destruct Hc1 as [Hc1|Hold]; [exact Hc1|eauto].
      * rewrite Hother in Hn by exact Hne. eauto.
  - injection Hs as Hb Ht. split.
    + rewrite Ho, Htq, Hb. exact Hcount.
    + rewrite Hb. exact Hcb.
Qed.

Lemma SceneInv_step (e : Game.Event) (g : Game.t) :
  SceneInv g -> SceneInv (Game.step e g).
Proof.
  intros I. destruct e as [h|r|delta].
  - apply SceneInv_frame, I.
  - destruct I as [Hcount Hcb].
    destruct (pointerdown_scene r g) as (Ho & Hn & Hl).
    unfold Game.step. split.
    + rewrite Ho, Hl. exact Hcount.
    + intros r' q. rewrite Hn. apply Hcb.
  - destruct I as [Hcount Hcb].
    destruct (step_not_frame (Game.TweensUpdate delta) g) as [Ho _];
      [discriminate|].
    pose proof (tweensUpdate_boards delta (Game.tweens g) (Game.questBoards g)) as B.
    pose proof (tweensUpdate_length delta (Game.tweens g) (Game.questBoards g)) as L.
    split.
    + rewrite Ho. unfold Game.step.
      destruct (Game.tweensUpdate _ _ _). simpl in *. rewrite L. exact Hcount.
    + intros r q Hn Hv. unfold Game.step in Hn.
      destruct (Game.tweensUpdate _ _ _). simpl in *.
      destruct (B r q Hn) as (q0 & Hn0 & Hc0 & Hv0).
      rewrite Hc0. apply (Hcb r q0 Hn0). apply Hv0, Hv.
Qed.

Lemma SceneInv_run (es : list Game.Event) :
  forall g, SceneInv g -> SceneInv (Game.run es g).
Proof.
  unfold Game.run.
  induction es as [|e es IH]; intros g I; simpl; [exact I|].
  apply IH, SceneInv_step, I.
Qed.

(** X7 -- However many frames, presses and interactions are played, the
    scene holds one quest board while the obstacle references none and two
    from the first interaction on, never more: an interaction reuses the board
    the obstacle references; and the reference always designates a board of
    the scene. *)
Theorem X7_at_most_two_boards (useDefineForClassFields : bool)
  (es : list Game.Event) :
  let g := Game.run es (Game.create useDefineForClassFields) in
  List.length (Game.questBoards g)
  = (match OozeObstacle.questBoard (Game.oozeObstacle g) with
     | Some _ => 2%nat
     | None => 1%nat
     end)
  /\ (forall r, OozeObstacle.questBoard (Game.oozeObstacle g) = Some r ->
                exists q, nth_error (Game.questBoards g) r = Some q).
Proof.
  intros g.
  destruct (SceneInv_run es _ (SceneInv_create useDefineForClassFields))
    as [Hcount _].
  fold g in Hcount.
  destruct Hcount as [[E1 E2]|[E1 E2]]; rewrite E1, E2; split; auto.
  - discriminate.
  - intros r E. injection E as <-.
    destruct (nth_error (Game.questBoards g) 1) eqn:N; [eauto|].
    apply nth_error_None in N. lia.
Qed.

Lemma X7_witness :
  let g :=
    Game.run [Game.Frame interactNear; Game.PointerDownOk 1;
              Game.TweensUpdate 300; Game.Frame interactNear]
      (Game.create true) in
  OozeObstacle.questBoard (Game.oozeObstacle g) = Some 1%nat
  /\ exists q, nth_error (Game.questBoards g) 1 = Some q.
Proof.
  intros g. split; [reflexivity|].
  exact (proj2 (X7_at_most_two_boards true
                  [Game.Frame interactNear; Game.PointerDownOk 1;
                   Game.TweensUpdate 300; Game.Frame interactNear])
           1%nat eq_refl).
Defined.

(** X8 -- In every state the scene reaches, a frame in which the player is
    inside the radius and the interact key has just gone down leaves the
    player's movement disabled and the horizontal velocity at zero, the
    bubble's flag false, and the board the obstacle references open, holding
    the callback that re-enables movement; no other board is open. *)
Theorem X8_interaction_opens_panel (useDefineForClassFields : bool)
  (es : list Game.Event) (h : Game.Host) :
  let g := Game.run es (Game.create useDefineForClassFields) in
  let g' := Game.step (Game.Frame h) g in
  nearOoze g' = true ->
  interactDown h = true ->
  Player.canMove (Game.player g') = false
  /\ Player.velocityX (Player.sprite (Game.player g')) = 0
  /\ bubbleShown g' = false
  /\ exists r q,
       OozeObstacle.questBoard (Game.oozeObstacle g') = Some r
       /\ nth_error (Game.questBoards g') r = Some q
       /\ QuestBoard.isVisible q = true
       /\ QuestBoard.onCloseCallback q = Some OozeObstacle.ReenableMovement
       /\ (forall r' q', nth_error (Game.questBoards g') r' = Some q' ->
                         QuestBoard.isVisible q' = true -> r' = r).
Proof.
  intros g g' Hnear Hdown.
  pose proof (BubbleInv_run es _ (BubbleInv_create useDefineForClassFields))
    as BI.
  pose proof (SceneInv_step (Game.Frame h) _
                (SceneInv_run es _ (SceneInv_create useDefineForClassFields)))
    as [Hcount Hcb].
  pose proof (PanelInv_step (Game.Frame h) _
                (PanelInv_run es _ (PanelInv_create useDefineForClassFields)))
    as [Hvis _ _].
  fold g in BI, Hcount, Hcb, Hvis. fold g' in Hcount, Hcb, Hvis.
  destruct (frame_bubble h g BI) as (_ & _ & _ & _ & Hs & _). fold g' in Hs.
  destruct (frame_fields h g) as (_ & Hp & Ho).
  destruct (frame_scene h g) as (_ & Hsc).
  cbv zeta in Hp, Ho, Hsc. fold g' in Hp, Ho, Hsc.
  assert (BaseObstacle.isPlayerNearby
            (Player.getPosition
               (snd (Player.update (Game.keys h)
                       (Game.player (Game.hostWrite h g)))))
            (OozeObstacle.base (Game.oozeObstacle g)) = true) as Hn.
  { rewrite update_getPosition. rewrite <- Hnear. symmetry.
    apply nearOoze_frame. }
  rewrite Hn, Hdown in Hp, Ho, Hsc. simpl in Hp, Ho, Hsc.
  split; [rewrite Hp; reflexivity|]. split; [rewrite Hp; reflexivity|].
  split; [rewrite Hs, Hnear, Hdown;
          destruct (bubbleHeld g), (Game.isPlayerNearOoze g), (bubbleShown g);
          reflexivity|].
  set (toggled := toggleBubble _ _ _) in *.
  set (moved := snd (Player.update _ _)) in *.
  pose proof (onPlayerInteract_board toggled moved
                (Game.questBoards g) (Game.tweens g)) as B.
  destruct (OozeObstacle.onPlayerInteract _ _ _ _) as [[[o' p'] b'] t'].
  injection Hsc as Hb Ht.
  assert (forall r0, OozeObstacle.questBoard toggled = Some r0 ->
                     (r0 < List.length (Game.questBoards g))%nat) as Href.
  { intros r0 E. subst toggled. rewrite toggleBubble_questBoard in E.
    destruct (SceneInv_run es _ (SceneInv_create useDefineForClassFields))
      as [[[E1 _]|[E1 E2]] _];
      fold g in E1; [congruence|].
    fold g in E2. rewrite E2. injection (eq_trans (eq_sym E) E1) as ->. lia. }
  destruct (B Href) as (_ & (q1 & Hn1 & Hv1 & _) & _).
  rewrite <- Hb in Hn1.
  exists (boardToOpen toggled (Game.questBoards g)), q1.
  rewrite Ho. split; [reflexivity|]. split; [exact Hn1|].
  split; [exact Hv1|]. split; [apply (Hcb _ _ Hn1 Hv1)|].
  intros r' q' Hn' Hv'.
  pose proof (Hvis r' q' Hn' Hv') as E. rewrite Ho in E. simpl in E. congruence.
Qed.

Lemma X8_witness :
  let g' := Game.step (Game.Frame interactNear) (Game.run [] (Game.create true)) in
  nearOoze g' = true
  /\ interactDown interactNear = true
  /\ Player.canMove (Game.player g') = false
  /\ bubbleShown g' = false.
Proof.
  intros g'. split; [reflexivity|]. split; [reflexivity|].
  destruct (X8_interaction_opens_panel true [] interactNear eq_refl eq_refl)
    as (Hc & _ & Hb & _).
  split; [exact Hc | exact Hb].
Defined.

(** X9 -- In every state the scene reaches, pressing the OK button of an
    open board and letting the tween manager advance by 300 ms or more closes
    the panel and gives the player's movement back: the board's flag is
    false, no board at all is open, and movement is enabled. *)
Theorem X9_ok_then_fade_out_closes (useDefineForClassFields : bool)
  (es : list Game.Event) (r : nat) (q : OozeObstacle.Board) (delta : Z) :
  let g := Game.run es (Game.create useDefineForClassFields) in
  let g' := Game.run [Game.PointerDownOk r; Game.TweensUpdate delta] g in
  nth_error (Game.questBoards g) r = Some q ->
  QuestBoard.isVisible q = true ->
  (300 <= delta)%Z ->
  boardIsVisible r g' = Some false
  /\ (forall r' q', nth_error (Game.questBoards g') r' = Some q' ->
                    QuestBoard.isVisible q' = false)
  /\ Player.canMove (Game.player g') = true.
Proof.
  intros g g' Hn Hv Hdelta.
  pose proof (SceneInv_run es _ (SceneInv_create useDefineForClassFields))
    as [_ Hcb].
  pose proof (PanelInv_run es _ (PanelInv_create useDefineForClassFields)) as P.
  fold g in Hcb, P.
  assert (g' = Game.step (Game.TweensUpdate delta)
                 (Game.step (Game.PointerDownOk r) g)) as Hg'
    by (unfold g'; rewrite !run_cons; apply run_nil).
  clearbody g' g. subst g'.
  pose proof (Hcb r q Hn Hv) as Hc.
  pose proof (visible_is_referenced g P r q Hn Hv) as Href.
  set (g1 := Game.step (Game.PointerDownOk r) g).
  pose proof (PanelInv_step (Game.TweensUpdate delta) g1
                (PanelInv_step (Game.PointerDownOk r) g P)) as [Hvis _ _].
  destruct (pointerdown_open r q g Hn Hv Hc) as (Hb1 & Ht1 & Hc1 & Ho1).
  fold g1 in Hb1, Ht1, Hc1, Ho1.
  destruct (tweensUpdate_scene delta g1) as (Hp' & Hb' & Ho').
  clearbody g1.
  set (g' := Game.step (Game.TweensUpdate delta) g1) in *. clearbody g'.
  destruct (due_fadeOut_closes delta (Game.tweens g1) (Game.questBoards g1) r
              (QuestBoard.fadeOut r)) as (q' & Hn' & Hv').
  { rewrite Ht1. apply in_or_app. right. left. reflexivity. }
  { apply isFadeOutOf_fadeOut. }
  { simpl. lia. }
  { rewrite Hb1, length_store; eapply nth_error_in_range; eauto. }
  rewrite <- Hb' in Hn'.
  split; [unfold boardIsVisible; rewrite Hn'; simpl; rewrite Hv'; reflexivity|].
  split; [|rewrite Hp'; exact Hc1].
  intros r' q'' Hn''. destruct (QuestBoard.isVisible q'') eqn:Hv''; [|reflexivity].
  pose proof (Hvis r' q'' Hn'' Hv'') as E.
  rewrite Ho', Ho1, Href in E. injection E as <-.
  rewrite Hn' in Hn''. congruence.
Qed.

Lemma X9_witness :
  let g := Game.run [Game.Frame interactNear] (Game.create true) in
  let g' := Game.run [Game.PointerDownOk 1; Game.TweensUpdate 300] g in
  boardIsVisible 1 g = Some true
  /\ boardIsVisible 1 g' = Some false
  /\ Player.canMove (Game.player g') = true.
Proof.
  intros g g'. split; [reflexivity|].
  destruct (X9_ok_then_fade_out_closes true [Game.Frame interactNear] 1
              openBoard 300
              eq_refl eq_refl ltac:(lia)) as (H1 & _ & H2).
  split; [exact H1 | exact H2].
Defined.

(** A frame that triggers an interaction, on the player and the obstacle,
    and on the scene when the board the obstacle references is open. *)
Lemma frame_interaction (h : Game.Host) (g : Game.t) :
  nearOoze (Game.step (Game.Frame h) g) = true ->
  interactDown h = true ->
  let g' := Game.step (Game.Frame h) g in
  let moved :=
    snd (Player.update (Game.keys h) (Game.player (Game.hostWrite h g))) in
  Game.player g' = Player.disableMovement moved
  /\ OozeObstacle.questBoard (Game.oozeObstacle g')
     = Some (boardToOpen (Game.oozeObstacle g) (Game.questBoards g))
  /\ (forall r q,
        OozeObstacle.questBoard (Game.oozeObstacle g) = Some r ->
        nth_error (Game.questBoards g) r = Some q ->
        QuestBoard.isVisible q = true ->
        nth_error (Game.questBoards g') r = Some q
        /\ Game.tweens g' = Game.tweens g).
Proof.
  intros Hnear Hdown g' moved.
  destruct (frame_fields h g) as (_ & Hp & Ho).
  destruct (frame_scene h g) as (_ & Hsc).
  cbv zeta in Hp, Ho, Hsc. fold g' in Hp, Ho, Hsc. fold moved in Hp, Ho, Hsc.
  assert (BaseObstacle.isPlayerNearby (Player.getPosition moved)
            (OozeObstacle.base (Game.oozeObstacle g)) = true) as Hnr.
  { unfold moved. rewrite update_getPosition. rewrite <- Hnear. symmetry.
    apply nearOoze_frame. }
  rewrite Hnr, Hdown in Hp, Ho, Hsc. simpl in Hp, Ho, Hsc.
  set (toggled := toggleBubble _ _ _) in *.
  assert (OozeObstacle.questBoard toggled
          = OozeObstacle.questBoard (Game.oozeObstacle g)) as Htq
    by apply toggleBubble_questBoard.
  assert (boardToOpen toggled (Game.questBoards g)
          = boardToOpen (Game.oozeObstacle g) (Game.questBoards g)) as Hopen
    by (unfold boardToOpen; rewrite Htq; reflexivity).
  split; [exact Hp|]. split; [rewrite Ho, Hopen; reflexivity|].
  intros r q Href Hn Hv.
  pose proof (onPlayerInteract_board toggled moved
                (Game.questBoards g) (Game.tweens g)) as B.
  destruct (OozeObstacle.onPlayerInteract _ _ _ _) as [[[o' p'] b'] t'].
  injection Hsc as Hb Ht.
  destruct B as (_ & _ & _ & Hkeep).
  { intros r0 E. rewrite Htq, Href in E. injection E as <-.
    eapply nth_error_in_range; eauto. }
  assert (boardToOpen toggled (Game.questBoards g) = r) as Hr
    by (unfold boardToOpen; rewrite Htq, Href; reflexivity).
  rewrite Hr in Hkeep. destruct (Hkeep q Hn Hv) as [Hn1 Ht1].
  rewrite Hb, Ht. auto.
Qed.

(** X10 -- An interaction triggered while the open board is fading out
    leaves the player without movement and without panel: the frame disables
    movement and finds the board still open, so it opens nothing and
    registers nothing; when the fade-out then completes, no board is open
    and movement is still disabled. *)
Theorem X10_interaction_during_fade_out (useDefineForClassFields : bool)
  (es : list Game.Event) (h : Game.Host)
  (delta : Z) (r : nat) (q : OozeObstacle.Board) (tw : Tweens.Tween) :
  let g := Game.run es (Game.create useDefineForClassFields) in
  let g' := Game.run [Game.Frame h; Game.TweensUpdate delta] g in
  nth_error (Game.questBoards g) r = Some q ->
  QuestBoard.isVisible q = true ->
  In tw (Game.tweens g) ->
  isFadeOutOf r tw = true ->
  (Tweens.duration tw <= Tweens.elapsed tw + delta)%Z ->
  nearOoze (Game.step (Game.Frame h) g) = true ->
  interactDown h = true ->
  (forall r' q', nth_error (Game.questBoards g') r' = Some q' ->
                 QuestBoard.isVisible q' = false)
  /\ Player.canMove (Game.player g') = false.
Proof.
  intros g g' Hn Hv Hin Hf Hdue Hnear Hdown.
  pose proof (PanelInv_run es _ (PanelInv_create useDefineForClassFields)) as P.
  fold g in P.
  assert (g' = Game.step (Game.TweensUpdate delta)
                 (Game.step (Game.Frame h) g)) as Hg'
    by (unfold g'; rewrite !run_cons; apply run_nil).
  clearbody g' g. subst g'.
  pose proof (visible_is_referenced g P r q Hn Hv) as Href.
  destruct (frame_interaction h g Hnear Hdown) as (Hp & Ho & Hkeep).
  destruct (Hkeep r q Href Hn Hv) as [Hn1 Ht1].
  unfold boardToOpen in Ho. rewrite Href in Ho.
  set (g1 := Game.step (Game.Frame h) g) in *.
  pose proof (PanelInv_step (Game.TweensUpdate delta) g1
                (PanelInv_step (Game.Frame h) g P)) as [Hvis _ _].
  fold g1 in Hvis.
  destruct (tweensUpdate_scene delta g1) as (Hp' & Hb' & Ho').
  clearbody g1.
  set (g' := Game.step (Game.TweensUpdate delta) g1) in *. clearbody g'.
  destruct (due_fadeOut_closes delta (Game.tweens g1) (Game.questBoards g1) r tw)
    as (q' & Hn' & Hv'); auto.
  { rewrite Ht1. exact Hin. }
  { eapply nth_error_in_range; eauto. }
  rewrite <- Hb' in Hn'.
  split; [|rewrite Hp', Hp; reflexivity].
  intros r' q'' Hn''. destruct (QuestBoard.isVisible q'') eqn:Hv''; [|reflexivity].
  pose proof (Hvis r' q'' Hn'' Hv'') as E.
  rewrite Ho', Ho in E. injection E as <-.
  rewrite Hn' in Hn''. congruence.
Qed.

Lemma X10_witness :
  let g :=
    Game.run [Game.Frame interactNear; Game.PointerDownOk 1] (Game.create true) in
  let g' := Game.run [Game.Frame interactNear; Game.TweensUpdate 300] g in
  boardIsVisible 1 g = Some true
  /\ boardIsVisible 1 g' = Some false
  /\ Player.canMove (Game.player g') = false.
Proof.
  intros g g'. split; [reflexivity|]. split; [reflexivity|].
  refine (proj2 (X10_interaction_during_fade_out true
                   [Game.Frame interactNear; Game.PointerDownOk 1]
                   interactNear 300 1 openBoard (QuestBoard.fadeOut 1)
                   eq_refl eq_refl _ eq_refl _ eq_refl eq_refl)).
  - right. left. reflexivity.
  - simpl. lia.
Defined.

(** X11 -- The interact key acts inside the radius only.  A frame that ends
    with the player outside the radius leaves the boards, the tweens and the
    movement flag as they were and does not read the key's latch: the keys
    stay as the engine set them, but for the shift key's tick when the
    running query of a player who can move has answered; a frame that ends
    inside the radius clears the latch, and changes the boards, the tweens or
    the movement flag only if the latch was set. *)
Theorem X11_interact_only_inside_radius (h : Game.Host) (g : Game.t) :
  let g' := Game.step (Game.Frame h) g in
  (nearOoze g' = false ->
   Game.questBoards g' = Game.questBoards g
   /\ Game.tweens g' = Game.tweens g
   /\ Player.canMove (Game.player g') = Player.canMove (Game.player g)
   /\ Game.inputManager g'
      = (if Player.canMove (Game.player g)
         then snd (InputManager.isRunning (Game.keys h))
         else Game.keys h)
   /\ InputManager.interactKey (Game.inputManager g')
      = InputManager.interactKey (Game.keys h))
  /\ (nearOoze g' = true ->
      InputManager.justDown (InputManager.interactKey (Game.inputManager g'))
      = false
      /\ (interactDown h = false ->
          Game.questBoards g' = Game.questBoards g
          /\ Game.tweens g' = Game.tweens g
          /\ Player.canMove (Game.player g') = Player.canMove (Game.player g))).
Proof.
  intros g'.
  destruct (frame_fields h g) as (_ & Hp & _).
  destruct (frame_scene h g) as (Hi & Hsc).
  destruct (beforeCheck_fields h g) as (_ & _ & _ & _ & _ & Hq & Hk).
  cbv zeta in Hp, Hi, Hsc, Hq, Hk. fold g' in Hp, Hi, Hsc.
  rewrite Hq in Hk. clear Hq.
  pose proof (update_keys (Game.keys h) (Game.player (Game.hostWrite h g))) as Hu.
  change (Player.canMove (Game.player (Game.hostWrite h g)))
    with (Player.canMove (Game.player g)) in Hu.
  set (queried := fst (Player.update _ _)) in *.
  set (moved := snd (Player.update _ _)) in *.
  assert (BaseObstacle.isPlayerNearby (Player.getPosition moved)
            (OozeObstacle.base (Game.oozeObstacle g)) = nearOoze g') as Hnear
    by (unfold moved; rewrite update_getPosition; symmetry; apply nearOoze_frame).
  rewrite Hnear in Hp, Hi, Hsc.
  assert (Player.canMove moved = Player.canMove (Game.player g)) as Hcm
    by (unfold moved; rewrite update_canMove; reflexivity).
  clearbody moved queried.
  split; intros Hn; rewrite Hn in Hp, Hi, Hsc; cbn [andb] in Hp, Hsc.
  - injection Hsc as Hb Ht. rewrite Hp, Hi, <- Hu. auto 6.
  - split.
    + rewrite Hi. unfold InputManager.isInteractPressed, InputManager.JustDown.
      destruct (InputManager.justDown (InputManager.interactKey queried))
        eqn:E; simpl; [reflexivity|exact E].
    + intros Hd. rewrite Hd in Hp, Hsc. injection Hsc as Hb Ht.
      rewrite Hp. auto.
Qed.

Lemma X11_witness :
  let far := Game.step (Game.Frame standFar) (Game.create true) in
  nearOoze far = false
  /\ Game.questBoards far = Game.questBoards (Game.create true)
  /\ Player.canMove (Game.player far) = true.
Proof.
  intros far. split; [reflexivity|].
  destruct (proj1 (X11_interact_only_inside_radius standFar (Game.create true))
              eq_refl)
    as (Hb & _ & Hc & _).
  split; [exact Hb | exact Hc].
Defined.

(** X12 -- While a board is open and no fade-out is running on it, the
    player stands still: in every state the scene reaches, the next frame
    sets the horizontal velocity to zero whatever keys are held, starts no
    jump and leaves the vertical velocity as the engine's physics step gave
    it. *)
Theorem X12_open_panel_holds_player (useDefineForClassFields : bool)
  (es : list Game.Event) (h : Game.Host) (r : nat) (q : OozeObstacle.Board) :
  let g := Game.run es (Game.create useDefineForClassFields) in
  let g' := Game.step (Game.Frame h) g in
  nth_error (Game.questBoards g) r = Some q ->
  QuestBoard.isVisible q = true ->
  closing r g = false ->
  Player.velocityX (Player.sprite (Game.player g')) = 0
  /\ Player.velocityY (Player.sprite (Game.player g')) = Game.body_velocityY h
  /\ Player.dustSprites (Game.player g') = Player.dustSprites (Game.player g)
  /\ Player.canMove (Game.player g') = false.
Proof.
  intros g g' Hn Hv Hcl.
  pose proof (PanelInv_run es _ (PanelInv_create useDefineForClassFields)) as P.
  fold g in P.
  pose proof (open_freezes_player g P r q Hn Hv Hcl) as Hoff.
  destruct (frame_fields h g) as (_ & Hp & _).
  cbv zeta in Hp. fold g' in Hp. rewrite Hp. clear Hp.
  unfold Player.update.
  rewrite handleMovement_disabled by exact Hoff.
  destruct (_ && _); simpl; repeat split; exact Hoff.
Qed.

Lemma X12_witness :
  let g := Game.run [Game.Frame interactNear] (Game.create true) in
  let g' := Game.step (Game.Frame standNear) g in
  boardIsVisible 1 g = Some true
  /\ closing 1 g = false
  /\ Player.velocityX (Player.sprite (Game.player g')) = 0.
Proof.
  intros g g'. split; [reflexivity|]. split; [reflexivity|].
  exact (proj1 (X12_open_panel_holds_player true [Game.Frame interactNear]
                  standNear 1 openBoard eq_refl eq_refl eq_refl)).
Defined.

(** ** Background Manager over several frames *)

Lemma parallaxFrames_static (scrolls : list number) :
  forall bg,
    let bg' := parallaxFrames scrolls bg in
    let key := BackgroundManager.textureKey in
    key (BackgroundManager.backSky bg') = key (BackgroundManager.backSky bg)
    /\ key (BackgroundManager.skyGlow bg') = key (BackgroundManager.skyGlow bg)
    /\ key (BackgroundManager.clouds bg') = key (BackgroundManager.clouds bg)
    /\ key (BackgroundManager.midgroundRocks bg')
       = key (BackgroundManager.midgroundRocks bg)
    /\ key (BackgroundManager.foregroundRocks bg')
       = key (BackgroundManager.foregroundRocks bg)
    /\ key (BackgroundManager.groundLayer bg')
       = key (BackgroundManager.groundLayer bg)
    /\ BackgroundManager.tilePositionX (BackgroundManager.backSky bg')
       = fold_left (fun x _ => x + BACKGROUND_CONFIG.SCROLL_SPEEDS.BACK_SKY)
           scrolls (BackgroundManager.tilePositionX (BackgroundManager.backSky bg)).
Proof.
  unfold parallaxFrames.
  induction scrolls as [|c cs IH]; intros bg; simpl; [repeat split|].
  specialize (IH (BackgroundManager.updateParallax c bg)). cbv zeta in IH.
  destruct IH as (H1 & H2 & H3 & H4 & H5 & H6 & H7).
  rewrite H1, H2, H3, H4, H5, H6, H7. repeat split.
Qed.

(** X13 -- Over any run of frames the camera-driven layers keep no memory:
    their offsets are the last camera scroll times their coefficients,
    whatever the earlier scrolls were; the back-most layer has added its
    constant once per frame, whatever the scrolls were; no layer changes
    texture; and the clouds layer, created with the sky-glow texture and
    given the same coefficient, is the same tiling as the sky-glow layer. *)
Theorem X13_parallax_over_frames
  (earlier : list number) (last : number) (bg : BackgroundManager.t) :
  let bg' := parallaxFrames (earlier ++ [last]) bg in
  let offset := BackgroundManager.tilePositionX in
  let key := BackgroundManager.textureKey in
  (offset (BackgroundManager.skyGlow bg')
     = last * BACKGROUND_CONFIG.SCROLL_SPEEDS.SKY_GLOW
   /\ offset (BackgroundManager.clouds bg')
     = last * BACKGROUND_CONFIG.SCROLL_SPEEDS.CLOUDS
   /\ offset (BackgroundManager.midgroundRocks bg')
     = last * BACKGROUND_CONFIG.SCROLL_SPEEDS.MIDGROUND_ROCKS
   /\ offset (BackgroundManager.foregroundRocks bg')
     = last * BACKGROUND_CONFIG.SCROLL_SPEEDS.FOREGROUND_ROCKS
   /\ offset (BackgroundManager.groundLayer bg')
     = last * BACKGROUND_CONFIG.SCROLL_SPEEDS.GROUND_LAYER)
  /\ offset (BackgroundManager.backSky bg')
     = fold_left (fun x _ => x + BACKGROUND_CONFIG.SCROLL_SPEEDS.BACK_SKY)
         (earlier ++ [last]) (offset (BackgroundManager.backSky bg))
  /\ (key (BackgroundManager.backSky bg') = key (BackgroundManager.backSky bg)
      /\ key (BackgroundManager.skyGlow bg') = key (BackgroundManager.skyGlow bg)
      /\ key (BackgroundManager.clouds bg') = key (BackgroundManager.clouds bg)
      /\ key (BackgroundManager.midgroundRocks bg')
         = key (BackgroundManager.midgroundRocks bg)
      /\ key (BackgroundManager.foregroundRocks bg')
         = key (BackgroundManager.foregroundRocks bg)
      /\ key (BackgroundManager.groundLayer bg')
         = key (BackgroundManager.groundLayer bg))
  /\ BackgroundManager.clouds
       (parallaxFrames (earlier ++ [last]) BackgroundManager.createBackground)
     = BackgroundManager.skyGlow
         (parallaxFrames (earlier ++ [last]) BackgroundManager.createBackground).
Proof.
  intros bg' offset key.
  destruct (parallaxFrames_static (earlier ++ [last]) bg)
    as (K1 & K2 & K3 & K4 & K5 & K6 & Hsky).
  fold bg' in K1, K2, K3, K4, K5, K6, Hsky.
  assert (forall b, parallaxFrames (earlier ++ [last]) b
                    = BackgroundManager.updateParallax last
                        (parallaxFrames earlier b)) as Hlast.
  { intros b. unfold parallaxFrames. rewrite fold_left_app. reflexivity. }
  split; [subst bg'; rewrite Hlast; repeat split|].
  split; [exact Hsky|]. split; [repeat split; assumption|].
  rewrite Hlast.
  destruct (parallaxFrames_static earlier BackgroundManager.createBackground)
    as (_ & J2 & J3 & _).
  cbv zeta in J2, J3. simpl in J2, J3.
  unfold BackgroundManager.updateParallax, BackgroundManager.set_tilePositionX.
  simpl. rewrite J2, J3. reflexivity.
Qed.

(** ** The chat bubble's methods and objects *)

(** X14 -- [showChatBubble] and [hideChatBubble] are idempotent: a repeated
    call changes nothing and makes no further [setVisible] call.  When the
    bubble's image and text exist, the flag is true after a show and false
    after a hide, and both objects have received the same call; when either
    object is missing, both methods leave the obstacle untouched. *)
Theorem X14_bubble_methods (o : OozeObstacle.t) :
  OozeObstacle.showChatBubble (OozeObstacle.showChatBubble o)
  = OozeObstacle.showChatBubble o
  /\ OozeObstacle.hideChatBubble (OozeObstacle.hideChatBubble o)
     = OozeObstacle.hideChatBubble o
  /\ (forall img txt,
        OozeObstacle.chatBubbleImage o = Some img ->
        OozeObstacle.chatBubbleText o = Some txt ->
        OozeObstacle.chatBubbleVisible (OozeObstacle.showChatBubble o) = Some true
        /\ OozeObstacle.truthy
             (OozeObstacle.chatBubbleVisible (OozeObstacle.hideChatBubble o))
           = false
        /\ (OozeObstacle.truthy (OozeObstacle.chatBubbleVisible o) = false ->
            OozeObstacle.chatBubbleImage (OozeObstacle.showChatBubble o)
            = Some (OozeObstacle.setVisible true img)
            /\ OozeObstacle.chatBubbleText (OozeObstacle.showChatBubble o)
               = Some (OozeObstacle.setVisible true txt))
        /\ (OozeObstacle.truthy (OozeObstacle.chatBubbleVisible o) = true ->
            OozeObstacle.chatBubbleImage (OozeObstacle.hideChatBubble o)
            = Some (OozeObstacle.setVisible false img)
            /\ OozeObstacle.chatBubbleText (OozeObstacle.hideChatBubble o)
               = Some (OozeObstacle.setVisible false txt)))
  /\ (OozeObstacle.chatBubbleImage o = None \/ OozeObstacle.chatBubbleText o = None ->
      OozeObstacle.showChatBubble o = o /\ OozeObstacle.hideChatBubble o = o).
Proof.
  destruct o as [b [i|] [t|] [[|]|] qb];
    unfold OozeObstacle.showChatBubble, OozeObstacle.hideChatBubble; simpl;
    (split; [reflexivity|]); (split; [reflexivity|]);
    (split; [intros img txt E1 E2; try discriminate;
             injection E1 as <-; injection E2 as <-;
             repeat split; intros; try discriminate; reflexivity
            |intros [E|E]; try discriminate; auto]).
Qed.

Lemma X14_witness :
  OozeObstacle.truthy (OozeObstacle.chatBubbleVisible oozeInSetup) = false
  /\ option_map OozeObstacle.setVisibleCalls
       (OozeObstacle.chatBubbleImage
          (OozeObstacle.showChatBubble (OozeObstacle.showChatBubble oozeInSetup)))
     = Some [true].
Proof.
  split; [reflexivity|].
  rewrite (proj1 (X14_bubble_methods oozeInSetup)). reflexivity.
Defined.

(** X15 -- [createChatBubble] leaves the image and the text displayed, as
    the engine made them: the hide it attempts finds the flag still undefined
    and makes no call.  From then on, in every state the scene reaches: when
    the compiler option is unset, the obstacle holds the two objects, they
    have received the same [setVisible] calls and are displayed or hidden
    together, what is displayed is what the last call asked for (and the
    bubble is displayed until a first call is made), and once a call has been
    made the flag [chatBubbleVisible] says what is displayed; when the option
    is set, the obstacle holds neither object, its flag is false, and
    [showChatBubble] and [hideChatBubble] leave it as it is. *)
Theorem X15_bubble_objects_in_step (useDefineForClassFields : bool)
  (es : list Game.Event) :
  let g := Game.run es (Game.create useDefineForClassFields) in
  let o := Game.oozeObstacle g in
  (exists img txt,
      OozeObstacle.chatBubbleImage oozeInSetup = Some img
      /\ OozeObstacle.chatBubbleText oozeInSetup = Some txt
      /\ OozeObstacle.chatBubbleVisible oozeInSetup = None
      /\ OozeObstacle.visible img = true
      /\ OozeObstacle.visible txt = true
      /\ OozeObstacle.setVisibleCalls img = []
      /\ OozeObstacle.setVisibleCalls txt = [])
  /\ bubbleHeld g = negb useDefineForClassFields
  /\ if useDefineForClassFields
     then
       OozeObstacle.chatBubbleImage o = None
       /\ OozeObstacle.chatBubbleText o = None
       /\ OozeObstacle.chatBubbleVisible o = Some false
       /\ OozeObstacle.showChatBubble o = o
       /\ OozeObstacle.hideChatBubble o = o
     else
       exists img txt,
         OozeObstacle.chatBubbleImage o = Some img
         /\ OozeObstacle.chatBubbleText o = Some txt
         /\ OozeObstacle.setVisibleCalls txt = OozeObstacle.setVisibleCalls img
         /\ OozeObstacle.visible txt = OozeObstacle.visible img
         /\ OozeObstacle.visible img = List.last (bubbleCalls g) true
         /\ (bubbleCalls g = [] \/ OozeObstacle.visible img = bubbleShown g).
Proof.
  intros g o.
  split; [eexists; eexists; repeat split|].
  split; [apply bubbleHeld_run|].
  pose proof (bubbleHeld_run useDefineForClassFields es) as Hheld.
  pose proof (BubbleSync_run useDefineForClassFields es) as S.
  fold g in Hheld, S. fold o in S.
  destruct useDefineForClassFields.
  - pose proof (lostBubble_run es) as L. fold g in L. fold o in L.
    destruct (lostBubble_methods o L) as (Hs & Hh & _).
    destruct L as (Hi & Ht & Hv). auto.
  - unfold bubbleHeld, holdsBubble in Hheld. fold o in Hheld.
    unfold bubbleCalls, imageCalls, bubbleShown. fold o.
    destruct (OozeObstacle.chatBubbleImage o) as [img|] eqn:Ei; [|discriminate].
    destruct (OozeObstacle.chatBubbleText o) as [txt|] eqn:Et; [|discriminate].
    destruct (S img txt Ei Et) as (Hc & Hv & Hl & Hf).
    exists img, txt. auto 7.
Qed.

(** ** The proximity predicate on values that are not numbers *)

Lemma sub_nan_l (y : number) : nan - y = nan.
Proof. apply Prim2SF_inj. rewrite sub_spec. reflexivity. Qed.

Lemma sub_nan_r (y : number) : y - nan = nan.
Proof.
  apply Prim2SF_inj. rewrite sub_spec. change (Prim2SF nan) with S754_nan.
  destruct (Prim2SF y); reflexivity.
Qed.

Lemma add_nan_l (y : number) : nan + y = nan.
Proof. apply Prim2SF_inj. rewrite add_spec. reflexivity. Qed.

Lemma add_nan_r (y : number) : y + nan = nan.
Proof.
  apply Prim2SF_inj. rewrite add_spec. change (Prim2SF nan) with S754_nan.
  destruct (Prim2SF y); reflexivity.
Qed.

Lemma ltb_nan_r (y : number) : (y <? nan) = false.
Proof.
  rewrite ltb_spec. change (Prim2SF nan) with S754_nan.
  destruct (Prim2SF y); reflexivity.
Qed.

(** X16 -- When a coordinate of the player or of the obstacle, or the
    radius, is NaN, the proximity predicate is false: the distance computed
    from a NaN is NaN, and no comparison with NaN holds. *)
Theorem X16_nan_is_never_nearby (playerPosition : number * number)
  (o : BaseObstacle.t) :
  fst playerPosition = nan \/ snd playerPosition = nan
  \/ BaseObstacle.sprite_x o = nan \/ BaseObstacle.sprite_y o = nan
  \/ BaseObstacle.interactionDistance o = nan ->
  BaseObstacle.isPlayerNearby playerPosition o = false.
Proof.
  unfold BaseObstacle.isPlayerNearby, Math.DistanceBetween.
  assert (nan * nan = nan) as Hm by reflexivity.
  assert (sqrt nan = nan) as Hs by reflexivity.
  assert (forall y, (nan <? y) = false) as Hl
    by (intros y; rewrite ltb_spec; reflexivity).
  intros [E|[E|[E|[E|E]]]]; rewrite E;
    rewrite ?sub_nan_l, ?sub_nan_r, ?Hm, ?add_nan_l, ?add_nan_r, ?Hs;
    auto using ltb_nan_r.
Qed.

Lemma X16_witness :
  BaseObstacle.isPlayerNearby (nan, 930) oozeBase = false.
Proof.
  apply X16_nan_is_never_nearby. left. reflexivity.
Defined.

(** ** main.ts: the running instance *)

Ltac eqb_cases :=
  repeat match goal with
         | |- context [Nat.eqb ?a ?b] => destruct (Nat.eqb_spec a b)
         end;
  try reflexivity; try congruence; try lia.

Lemma OneRunning_StartGame (p : string) (st : Main.t) :
  OneRunning st ->
  (forall j, Main.gameInstance st = Some j -> (j < List.length (Main.games st))%nat) ->
  OneRunning (fst (Main.StartGame p st))
  /\ List.length (Main.games (fst (Main.StartGame p st)))
     = S (List.length (Main.games st))
  /\ Main.gameInstance (fst (Main.StartGame p st))
     = Some (List.length (Main.games st))
  /\ snd (Main.StartGame p st) = List.length (Main.games st)
  /\ nth_error (Main.games (fst (Main.StartGame p st))) (List.length (Main.games st))
     = Some (Main.newGame p).
Proof.
  intros Inv Href. unfold OneRunning, Main.StartGame in *.
  destruct (Main.gameInstance st) as [j|] eqn:Ej.
  - specialize (Href j eq_refl).
    destruct (nth_error (Main.games st) j) as [gj|] eqn:Ej';
      [|apply nth_error_None in Ej'; lia].
    simpl. rewrite length_store by exact Href.
    split; [|rewrite length_app, length_store, nth_error_snoc, length_store,
              Nat.eqb_refl by exact Href; simpl; repeat split; lia].
    intros i g. rewrite nth_error_snoc, length_store by exact Href.
    rewrite nth_error_store by exact Href.
    intros E. revert E. eqb_cases.
    + intros E. injection E as <-. reflexivity.
    + intros E. injection E as <-. reflexivity.
    + intros E. rewrite (Inv i g E). eqb_cases.
  - simpl.
    split; [|rewrite length_app, nth_error_snoc, Nat.eqb_refl; simpl;
              repeat split; lia].
    intros i g. rewrite nth_error_snoc.
    intros E. revert E. eqb_cases.
    + intros E. injection E as <-. reflexivity.
    + intros E. rewrite (Inv i g E). reflexivity.
Qed.

Lemma startedWith_snoc (ps : list string) (p : string) :
  startedWith (ps ++ [p]) = fst (Main.StartGame p (startedWith ps)).
Proof.
  unfold startedWith. rewrite fold_left_app. reflexivity.
Qed.

(** X17 -- However many times the game is started, exactly one engine
    instance is running afterwards: the one [StartGame] returned last, which
    is the one under the module's handle and sits in the container given to
    that call; every instance started before has been destroyed, and one
    instance has been constructed per call. *)
Theorem X17_one_running_instance (earlier : list string) (container : string) :
  let before := startedWith earlier in
  let st := startedWith (earlier ++ [container]) in
  let returned := snd (Main.StartGame container before) in
  st = fst (Main.StartGame container before)
  /\ Main.gameInstance st = Some returned
  /\ List.length (Main.games st) = S (List.length earlier)
  /\ nth_error (Main.games st) returned = Some (Main.newGame container)
  /\ (forall i g, nth_error (Main.games st) i = Some g ->
                  Main.destroyed g = negb (Nat.eqb i returned)).
Proof.
  intros before st returned.
  assert (forall ps,
            OneRunning (startedWith ps)
            /\ (forall j, Main.gameInstance (startedWith ps) = Some j ->
                          (j < List.length (Main.games (startedWith ps)))%nat)
            /\ List.length (Main.games (startedWith ps)) = List.length ps) as Hall.
  { intros ps. induction ps as [|p ps IH] using rev_ind.
    - split; [intros [|i] g; discriminate|]. split; [discriminate|reflexivity].
    - rewrite startedWith_snoc.
      destruct IH as (Inv & Href & Hlen).
      destruct (OneRunning_StartGame p _ Inv Href) as (Inv' & Hl' & Hi' & _).
      split; [exact Inv'|]. split.
      + intros j E. rewrite Hi' in E. injection E as <-. lia.
      + rewrite Hl', Hlen, length_app. simpl. lia. }
  destruct (Hall earlier) as (Inv & Href & Hlen). fold before in Inv, Href, Hlen.
  assert (st = fst (Main.StartGame container before)) as Hst
    by apply startedWith_snoc.
  destruct (OneRunning_StartGame container before Inv Href)
    as (Inv' & Hl' & Hi' & Hret & Hnew).
  fold returned in Hret. rewrite <- Hst in Inv', Hl', Hi', Hnew.
  rewrite Hret. split; [exact Hst|]. split; [exact Hi'|].
  split; [rewrite Hl', Hlen; reflexivity|]. split; [exact Hnew|].
  intros i g E. rewrite (Inv' i g E), Hi'. reflexivity.
Qed.

Lemma X17_witness :
  let st := startedWith ["game-container"; "game-container"]%string in
  option_map Main.destroyed (nth_error (Main.games st) 0) = Some true
  /\ option_map Main.destroyed (nth_error (Main.games st) 1) = Some false.
Proof.
  intros st.
  destruct (X17_one_running_instance ["game-container"%string]
              "game-container"%string) as (_ & _ & _ & _ & H).
  pose proof (H 0%nat (Main.destroy (Main.newGame "game-container")) eq_refl) as H0.
  split; [|reflexivity].
  change (Some (Main.destroyed (Main.destroy (Main.newGame "game-container")))
          = Some true).
  rewrite H0. reflexivity.
Defined.

(** ** The bubble at a crossing *)

(** X18 -- In every state the scene reaches, a frame in which the proximity
    boolean crosses and no interaction is triggered ends, when the obstacle
    holds the bubble's image and text (compiler option unset), with the
    bubble's flag equal to the proximity predicate, whatever the flag was
    before: the bubble hidden by an earlier interaction is shown again when
    the player comes back into the radius.  When the obstacle does not hold
    them (option set), the flag stays false. *)
Theorem X18_crossing_resets_bubble (useDefineForClassFields : bool)
  (es : list Game.Event) (h : Game.Host) :
  let g := Game.run es (Game.create useDefineForClassFields) in
  let g' := Game.step (Game.Frame h) g in
  Bool.eqb (Game.isPlayerNearOoze g) (nearOoze g') = false ->
  nearOoze g' && interactDown h = false ->
  bubbleShown g' = negb useDefineForClassFields && nearOoze g'
  /\ Game.isPlayerNearOoze g' = nearOoze g'.
Proof.
  intros g g' Hcross Hno.
  pose proof (BubbleInv_run es _ (BubbleInv_create useDefineForClassFields)) as I.
  pose proof (bubbleHeld_run useDefineForClassFields es) as Hheld.
  fold g in I, Hheld.
  destruct (frame_bubble h g I) as (_ & Ht & _ & _ & Hs & _).
  fold g' in Ht, Hs. split; [|exact Ht].
  rewrite Hs, Hno, Hheld.
  destruct useDefineForClassFields; [reflexivity|].
  destruct (Game.isPlayerNearOoze g), (nearOoze g'), (bubbleShown g);
    try discriminate; reflexivity.
Qed.

Lemma X18_witness :
  let back :=
    [Game.Frame interactNear; Game.PointerDownOk 1;
     Game.TweensUpdate 300; Game.Frame standFar] in
  let kept := Game.run back (Game.create false) in
  let lost := Game.run back (Game.create true) in
  Game.isPlayerNearOoze kept = false
  /\ nearOoze (Game.step (Game.Frame standNear) kept) = true
  /\ bubbleShown (Game.step (Game.Frame standNear) kept) = true
  /\ nearOoze (Game.step (Game.Frame standNear) lost) = true
  /\ bubbleShown (Game.step (Game.Frame standNear) lost) = false.
Proof.
  intros back kept lost.
  split; [reflexivity|]. split; [reflexivity|].
  split; [exact (proj1 (X18_crossing_resets_bubble false back standNear
                          eq_refl eq_refl))|].
  split; [reflexivity|].
  exact (proj1 (X18_crossing_resets_bubble true back standNear eq_refl eq_refl)).
Defined.
